(** * Mind-map plugin: settings merging, resize persistence, event glue

  A shallow embedding of the TypeScript sources of the mind-map plugin:
  - [src/markmap-plugins/html-escape.ts]  (module [HtmlEscape]),
  - the code-block renderer with its [SettingsManager] (module [CodeBlock]),
  - the [MindmapView] item view (module [MindmapView]).

  JavaScript objects used as dictionaries are finite maps from property
  names to values; [undefined] and [null] are values of their own, so that
  the nullish operators of the source ([??], [??=], [?.]) can be written
  out as the language defines them. *)

From Stdlib Require Import ZArith String Ascii List Bool Lia.
From stdpp Require Import gmap strings list fin_maps pretty.

Set Warnings "-register-all".
Local Open Scope string_scope.

(* ===================================================================== *)
(** * JavaScript values and operators used by the sources *)
(* ===================================================================== *)

Module JS.

(** Run-time values.  Numbers are integers here: the sources only add,
    compare and store pixel heights and node depths.  Arrays and dates are
    objects and appear as [JObj]. *)
Inductive jsval : Type :=
| JUndefined
| JNull
| JBool (b : bool)
| JNum (n : Z)
| JStr (s : string)
| JObj (props : gmap string jsval).

(** Own enumerable properties of a plain object. *)
Abbreviation obj := (gmap string jsval).

(** [o.k]: reading a missing property gives [undefined]. *)
Definition get (o : obj) (k : string) : jsval :=
  match o !! k with
  | Some v => v
  | None => JUndefined
  end.

(** [v === undefined || v === null]. *)
Definition nullish (v : jsval) : bool :=
  match v with
  | JUndefined | JNull => true
  | _ => false
  end.

(** [a ?? b]. *)
Definition coalesce (a b : jsval) : jsval :=
  if nullish a then b else a.

(** ToBoolean, as used by [if (v)] and [v ? _ : _]. *)
Definition truthy (v : jsval) : bool :=
  match v with
  | JUndefined | JNull => false
  | JBool b => b
  | JNum n => negb (n =? 0)%Z
  | JStr s => negb (String.eqb s "")
  | JObj _ => true
  end.

(** [n === v] for a number [n]. *)
Definition strict_eq_num (n : Z) (v : jsval) : bool :=
  match v with
  | JNum k => (n =? k)%Z
  | _ => false
  end.

(** A value of type [number | undefined]. *)
Definition of_number (o : option Z) : jsval :=
  match o with
  | Some n => JNum n
  | None => JUndefined
  end.

(** Completion of a call: normal return or a thrown exception. *)
Inductive error : Type :=
| TypeError (msg : string)
| Error (msg : string).

Inductive completion (A : Type) : Type :=
| Returned (a : A)
| Threw (e : error).
Arguments Returned {A} a.
Arguments Threw {A} e.

Lemma strict_eq_num_spec n v : strict_eq_num n v = true <-> v = JNum n.
Proof.
  destruct v; simpl; try (split; [discriminate | congruence]).
  rewrite Z.eqb_eq. split; [intros ->; reflexivity | congruence].
Qed.

Lemma nullish_of_number o : nullish (of_number o) = true <-> o = None.
Proof. destruct o; simpl; split; congruence. Qed.

End JS.

(* ===================================================================== *)
(** * Strings as the sources use them *)
(* ===================================================================== *)

Module Str.

(** [s.startsWith(p)]. *)
Fixpoint starts_with (p s : string) : bool :=
  match p, s with
  | EmptyString, _ => true
  | String _ _, EmptyString => false
  | String a p', String b s' => Ascii.eqb a b && starts_with p' s'
  end.

(** [s.slice(0, n)]. *)
Fixpoint take (n : nat) (s : string) : string :=
  match n, s with
  | O, _ => EmptyString
  | S _, EmptyString => EmptyString
  | S n', String c s' => String c (take n' s')
  end.

(** [s.slice(n)]. *)
Fixpoint drop (n : nat) (s : string) : string :=
  match n, s with
  | O, _ => s
  | S _, EmptyString => EmptyString
  | S n', String _ s' => drop n' s'
  end.

Lemma append_cons c (a b : string) : String c a ++ b = String c (a ++ b).
Proof. reflexivity. Qed.

Lemma take_drop n s : take n s ++ drop n s = s.
Proof.
  revert s. induction n as [|n IH]; intros [|c s]; try reflexivity.
  cbn [take drop]. now rewrite append_cons, IH.
Qed.

Lemma drop_drop n k s : drop k (drop n s) = drop (n + k) s.
Proof.
  revert s. induction n as [|n IH]; intros s; simpl; [reflexivity|].
  destruct s as [|c s]; [now destruct k|]. apply IH.
Qed.

Lemma app_assoc (a b c : string) : (a ++ b) ++ c = a ++ (b ++ c).
Proof.
  induction a as [|x a IH]; [reflexivity|].
  now rewrite !append_cons, IH.
Qed.

(** Cutting a string at two offsets [a <= b] gives three pieces that
    concatenate back to it. *)
Lemma three_pieces a b s :
  a <= b -> take a s ++ take (b - a) (drop a s) ++ drop b s = s.
Proof.
  intros Hab. replace (drop b s) with (drop (b - a) (drop a s)).
  - now rewrite (take_drop (b - a)), take_drop.
  - rewrite drop_drop. f_equal. lia.
Qed.

End Str.

(* ===================================================================== *)
(** * The htmlescape transformer plugin *)
(* ===================================================================== *)

Module HtmlEscape.

(** [s.replace(pat, rep)] for a string pattern: only the first occurrence
    of [pat] is replaced.  The replacement strings of the plugin contain no
    [$], so no replacement pattern is expanded. *)
Fixpoint replace (pat rep s : string) : string :=
  if Str.starts_with pat s then rep ++ Str.drop (String.length pat) s
  else match s with
       | EmptyString => EmptyString
       | String c s' => String c (replace pat rep s')
       end.

(** [TokenWithChildren]: the fields the plugin reads. *)
Inductive Token : Type :=
| mkToken (type : string) (content : option string)
          (children : option (list Token)).

Definition type (t : Token) : string :=
  match t with mkToken ty _ _ => ty end.
Definition content (t : Token) : option string :=
  match t with mkToken _ c _ => c end.
Definition children (t : Token) : option (list Token) :=
  match t with mkToken _ _ ch => ch end.

(** [token.content] used as a condition: defined and not the empty string. *)
Definition has_content (c : option string) : bool :=
  match c with
  | Some s => negb (String.eqb s "")
  | None => false
  end.

Definition escape (s : string) : string :=
  replace ">" "&gt;" (replace "<" "&lt;" s).

Fixpoint escapeAll (token : Token) : Token :=
  match token with
  | mkToken ty c ch =>
      let c' :=
        if String.eqb ty "htmltag" && has_content c
        then option_map escape c
        else c in
      let ch' :=
        match ch with
        | Some l => Some (List.map escapeAll l)
        | None => None
        end in
      mkToken ty c' ch'
  end.

(** [ctx.result = ctx.result.map(escapeAll)]. *)
Definition after_parse (result : list Token) : list Token :=
  List.map escapeAll result.

(** The claim's wording, read left to right over the characters: the first
    ["<"] met becomes ["&lt;"], the first [">"] met becomes ["&gt;"], every
    other character, later angle brackets included, is copied. *)
Fixpoint first_brackets_escaped (seen_lt seen_gt : bool) (s : string) : string :=
  match s with
  | EmptyString => EmptyString
  | String c s' =>
      if Ascii.eqb c "<" && negb seen_lt
      then "&lt;" ++ first_brackets_escaped true seen_gt s'
      else if Ascii.eqb c ">" && negb seen_gt
      then "&gt;" ++ first_brackets_escaped seen_lt true s'
      else String c (first_brackets_escaped seen_lt seen_gt s')
  end.

(** A token the plugin rewrites. *)
Definition escaped_here (t : Token) : bool :=
  String.eqb (type t) "htmltag" && has_content (content t).

Example escape_two_tags :
  escape "<b>x</b>" = "&lt;b&gt;x</b>".
Proof. reflexivity. Qed.

Example escapeAll_nested_tokens :
  escapeAll
    (mkToken "inline" (Some "<i>a</i>")
       (Some [ mkToken "htmltag" (Some "<i>") None;
               mkToken "text" (Some "a > b") None;
               mkToken "htmltag" (Some "") None;
               mkToken "htmltag" (Some "<a><b>") (Some []) ]))
  = mkToken "inline" (Some "<i>a</i>")
      (Some [ mkToken "htmltag" (Some "&lt;i&gt;") None;
              mkToken "text" (Some "a > b") None;
              mkToken "htmltag" (Some "") None;
              mkToken "htmltag" (Some "&lt;a&gt;<b>") (Some []) ]).
Proof. reflexivity. Qed.

Lemma first_brackets_done s : first_brackets_escaped true true s = s.
Proof.
  induction s as [|c s IH]; simpl; [reflexivity|].
  rewrite !andb_false_r. now rewrite IH.
Qed.

Lemma replace_lt s :
  replace "<" "&lt;" s = first_brackets_escaped false true s.
Proof.
  induction s as [|c s IH]; [reflexivity|].
  cbn [replace Str.starts_with first_brackets_escaped String.length Str.drop].
  rewrite andb_true_r, andb_false_r, (Ascii.eqb_sym c "<").
  destruct (Ascii.eqb "<" c) eqn:E.
  - simpl. now rewrite first_brackets_done.
  - simpl. now rewrite IH.
Qed.

Lemma replace_gt s :
  replace ">" "&gt;" s = first_brackets_escaped true false s.
Proof.
  induction s as [|c s IH]; [reflexivity|].
  cbn [replace Str.starts_with first_brackets_escaped String.length Str.drop].
  rewrite andb_true_r, andb_false_r, (Ascii.eqb_sym c ">").
  destruct (Ascii.eqb ">" c) eqn:E.
  - simpl. now rewrite first_brackets_done.
  - simpl. now rewrite IH.
Qed.

Lemma escape_first_brackets s :
  escape s = first_brackets_escaped false false s.
Proof.
  unfold escape.
  induction s as [|c s IH]; [reflexivity|].
  cbn [replace Str.starts_with first_brackets_escaped String.length Str.drop].
  rewrite !andb_true_r, (Ascii.eqb_sym c "<").
  destruct (Ascii.eqb "<" c) eqn:E.
  - simpl. now rewrite replace_gt.
  - cbn [replace Str.starts_with String.length Str.drop].
    rewrite andb_true_r, (Ascii.eqb_sym c ">").
    destruct (Ascii.eqb ">" c) eqn:E'.
    + simpl. now rewrite replace_lt.
    + now rewrite IH.
Qed.

(** C8. On every token, [escapeAll] keeps the type; when the type is
    ['htmltag'] and the content is non-empty the new content is the old one
    with only its first ["<"] turned into ["&lt;"] and only its first [">"]
    turned into ["&gt;"] (later angle brackets are copied), otherwise the
    content is untouched; the children, when present, are the images of the
    old children under [escapeAll], in order.  The parser hook applies this
    to every token of the result. *)
Theorem escapeAll_first_occurrence_only (t : Token) :
  type (escapeAll t) = type t
  /\ content (escapeAll t)
     = (if escaped_here t
        then option_map (first_brackets_escaped false false) (content t)
        else content t)
  /\ children (escapeAll t) = option_map (List.map escapeAll) (children t)
  /\ (forall result, after_parse result = List.map escapeAll result).
Proof.
  destruct t as [ty c ch]. unfold escaped_here.
  cbn [type content children escapeAll].
  split; [reflexivity|]. split; [|split; [destruct ch; reflexivity|reflexivity]].
  destruct (String.eqb ty "htmltag" && has_content c); [|reflexivity].
  destruct c as [s|]; [|reflexivity].
  simpl. now rewrite escape_first_brackets.
Qed.

End HtmlEscape.

(* ===================================================================== *)
(** * The code-block renderer and its SettingsManager *)
(* ===================================================================== *)

Module CodeBlock.
Import JS.

(** ** The host editor

    The document is a string; a position names a line and a column.  A line
    number past the last line is clipped to the end of the document. *)

Record EditorPosition : Type := { line : nat; ch : nat }.

Definition EditorLine (line : nat) : EditorPosition := {| line := line; ch := 0 |}.

Definition newline : ascii := "010"%char.

(** Offset of the first character of line [line] (lines count from 0). *)
Fixpoint lineStartOffset (line : nat) (doc : string) : nat :=
  match line, doc with
  | O, _ => 0
  | S _, EmptyString => 0
  | S l, String c rest =>
      S (lineStartOffset (if Ascii.eqb c newline then l else line) rest)
  end.

(** Number of characters before the next line break. *)
Fixpoint lineLength (s : string) : nat :=
  match s with
  | EmptyString => 0
  | String c rest => if Ascii.eqb c newline then 0 else S (lineLength rest)
  end.

Definition posToOffset (doc : string) (p : EditorPosition) : nat :=
  let o := lineStartOffset (line p) doc in
  o + Nat.min (ch p) (lineLength (Str.drop o doc)).

Record Editor : Type := { doc : string }.

(** [editor.getRange(from, to)]. *)
Definition getRange (ed : Editor) (from to : EditorPosition) : string :=
  let a := posToOffset (doc ed) from in
  let b := posToOffset (doc ed) to in
  Str.take (b - a) (Str.drop a (doc ed)).

(** [editor.replaceRange(text, from, to)]. *)
Definition replaceRange (ed : Editor) (text : string) (from to : EditorPosition) : Editor :=
  let a := posToOffset (doc ed) from in
  let b := posToOffset (doc ed) to in
  {| doc := Str.take a (doc ed) ++ text ++ Str.drop b (doc ed) |}.

(** [codeBlock.getSectionInfo()]: the lines of the opening and of the closing
    fence of the block. *)
Record SectionInfo : Type := { lineStart : nat; lineEnd : nat }.

(** ** SettingsManager *)

(** The three settings layers held in the private field [settings]. *)
Record Layers : Type := { global : obj; file : obj; codeBlock : obj }.

Record SettingsManager : Type := {
  newHeight : option Z;          (* number | undefined *)
  settings : Layers
}.

Definition DEFAULT_HEIGHT : Z := 150.

(** [get height()]. *)
Definition height (m : SettingsManager) : jsval :=
  coalesce
    (coalesce (of_number (newHeight m)) (get (codeBlock (settings m)) "height"))
    (JNum DEFAULT_HEIGHT).

(** [get merged()]: object spread, later sources win. *)
Definition merged (m : SettingsManager) : obj :=
  <["height" := height m]>
    (codeBlock (settings m) ∪ (file (settings m) ∪ global (settings m))).

(** A getter call in state-passing form: the value read and the manager
    after the call. *)
Definition read_merged (m : SettingsManager) : obj * SettingsManager :=
  (merged m, m).

(** [set global(s)] and [set file(s)]. *)
Definition set_global (s : obj) (m : SettingsManager) : SettingsManager :=
  {| newHeight := newHeight m;
     settings := {| global := s;
                    file := file (settings m);
                    codeBlock := codeBlock (settings m) |} |}.

Definition set_file (s : obj) (m : SettingsManager) : SettingsManager :=
  {| newHeight := newHeight m;
     settings := {| global := global (settings m);
                    file := s;
                    codeBlock := codeBlock (settings m) |} |}.

Definition with_newHeight (h : option Z) (m : SettingsManager) : SettingsManager :=
  {| newHeight := h; settings := settings m |}.

(** [set height(height: number)]. *)
Definition set_height (h : Z) (m : SettingsManager) : SettingsManager :=
  if strict_eq_num h (get (codeBlock (settings m)) "height")
  then with_newHeight None m
  else with_newHeight (Some h) m.

(** ** Persisting the height into the block's front-matter *)

(** What [GrayMatter(text)] returns: the body and the parsed front-matter. *)
Record GrayMatterFile : Type := { content : string; data : obj }.

(** [d.markmap ??= {}]. *)
Definition markmap_or_empty (d : obj) : obj :=
  if nullish (get d "markmap") then <["markmap" := JObj ∅]> d else d.

(** [d.markmap.height = h] in strict code (a class body): assigning a
    property of a primitive throws, as does assigning one of a nullish
    value; on an object the property is set. *)
Definition assign_markmap_height (h : jsval) (d : obj) : completion obj :=
  match get d "markmap" with
  | JObj o => Returned (<["markmap" := JObj (<["height" := h]> o)]> d)
  | JUndefined | JNull =>
      Threw (TypeError "Cannot set properties of undefined (setting 'height')")
  | JBool _ | JNum _ | JStr _ =>
      Threw (TypeError "Cannot create property 'height' on a primitive")
  end.

Section Persist.

(** The front-matter library: parser and printer. *)
Variable GrayMatter : string -> GrayMatterFile.
Variable GrayMatter_stringify : string -> obj -> string.

Definition saveHeight (m : SettingsManager) (info : SectionInfo) (editor : Editor)
  : completion (SettingsManager * Editor) :=
  match newHeight m with
  | None => Returned (m, editor)
  | Some _ =>
      let from := EditorLine (lineStart info + 1) in
      let to := EditorLine (lineEnd info) in
      let text := getRange editor from to in
      let md := GrayMatter text in
      match assign_markmap_height (height m) (markmap_or_empty (data md)) with
      | Threw e => Threw e
      | Returned d =>
          Returned (with_newHeight None m,
                    replaceRange editor (GrayMatter_stringify (content md) d) from to)
      end
  end.

End Persist.

(** The front-matter value under [markmap] accepts a property: it is missing,
    null, or an object. *)
Definition object_or_nullish (v : jsval) : bool :=
  match v with
  | JUndefined | JNull | JObj _ => true
  | JBool _ | JNum _ | JStr _ => false
  end.

(** The properties of the [markmap] entry before the height is written. *)
Definition markmap_props (d : obj) : obj :=
  match get d "markmap" with
  | JObj o => o
  | _ => ∅
  end.

(** The front-matter the claim asks for: [markmap] is the mapping it was (an
    empty one if there was none) with [height] set to [h]; the other keys are
    as they were. *)
Definition with_markmap_height (h : jsval) (d : obj) : obj :=
  <["markmap" := JObj (<["height" := h]> (markmap_props d))]> d.

(** The library reads back what it prints: the text printed for the body [c]
    and the front-matter [d] parses into [c] and [d]. *)
Definition reads_back (GrayMatter : string -> GrayMatterFile)
    (GrayMatter_stringify : string -> obj -> string) (c : string) (d : obj) : Prop :=
  GrayMatter (GrayMatter_stringify c d) = {| content := c; data := d |}.

(** ** The renderer *)

Section Renderer.

Variables INode Options : Type.
(** [readMarkdown] and [getOptions] of the rendering helpers, and
    [cssClasses.highlight]. *)
Variable readMarkdown : string -> INode * obj.
Variable getOptions : obj -> Options.
Variable highlight : string.

(** Calls made to the Markdown reader and to the markmap, in order. *)
Inductive call : Type :=
| ReadMarkdown (markdown : string)
| SetData (root : INode) (options : Options).

Record Renderer : Type := {
  rootNode : INode;
  settingsManager : SettingsManager;
  classList : gset string;       (* of containerEl.parentElement *)
  calls : list call
}.

Definition render (r : Renderer) : Renderer :=
  let markmapOptions := getOptions (merged (settingsManager r)) in
  {| rootNode := rootNode r;
     settingsManager := settingsManager r;
     classList :=
       if truthy (get (merged (settingsManager r)) "highlight")
       then classList r ∪ {[ highlight ]}
       else classList r ∖ {[ highlight ]};
     calls := calls r ++ [SetData (rootNode r) markmapOptions] |}.

Definition with_manager (m : SettingsManager) (r : Renderer) : Renderer :=
  {| rootNode := rootNode r; settingsManager := m;
     classList := classList r; calls := calls r |}.

Definition updateGlobalSettings (globalSettings : obj) (r : Renderer) : Renderer :=
  render (with_manager (set_global globalSettings (settingsManager r)) r).

Definition updateFileSettings (fileSettings : obj) (r : Renderer) : Renderer :=
  render (with_manager (set_file fileSettings (settingsManager r)) r).

(** The constructor: the Markdown is read, the manager is built, the first
    render happens. *)
Definition CodeBlockRenderer (markdown : string) (parentClasses : gset string)
    (globalSettings fileSettings : obj) : Renderer :=
  let '(root, codeBlockSettings) := readMarkdown markdown in
  render {| rootNode := root;
            settingsManager :=
              {| newHeight := None;
                 settings := {| global := globalSettings;
                                file := fileSettings;
                                codeBlock := codeBlockSettings |} |};
            classList := parentClasses;
            calls := [ReadMarkdown markdown] |}.

(** What can happen to a renderer after its construction: a render (also the
    one subscribed to [renderCodeblocks$]), a settings update, the resize
    handle assigning a height, a height saved on mouse-up. *)
Inductive op : Type :=
| Render
| UpdateGlobalSettings (s : obj)
| UpdateFileSettings (s : obj)
| AssignHeight (h : Z)
| HeightSaved.

Definition apply_op (r : Renderer) (o : op) : Renderer :=
  match o with
  | Render => render r
  | UpdateGlobalSettings s => updateGlobalSettings s r
  | UpdateFileSettings s => updateFileSettings s r
  | AssignHeight h => with_manager (set_height h (settingsManager r)) r
  | HeightSaved => with_manager (with_newHeight None (settingsManager r)) r
  end.

Definition run (ops : list op) (r : Renderer) : Renderer :=
  fold_left apply_op ops r.

Definition is_read (c : call) : bool :=
  match c with ReadMarkdown _ => true | SetData _ _ => false end.

Definition is_render (c : call) : bool :=
  match c with SetData _ _ => true | ReadMarkdown _ => false end.

End Renderer.

Arguments ReadMarkdown {INode Options} markdown.
Arguments SetData {INode Options} root options.
Arguments rootNode {INode Options} r.
Arguments settingsManager {INode Options} r.
Arguments classList {INode Options} r.
Arguments calls {INode Options} r.
Arguments render {INode Options} getOptions highlight r.
Arguments with_manager {INode Options} m r.
Arguments updateGlobalSettings {INode Options} getOptions highlight globalSettings r.
Arguments updateFileSettings {INode Options} getOptions highlight fileSettings r.
Arguments CodeBlockRenderer {INode Options} readMarkdown getOptions highlight
  markdown parentClasses globalSettings fileSettings.
Arguments apply_op {INode Options} getOptions highlight r o.
Arguments run {INode Options} getOptions highlight ops r.
Arguments is_read {INode Options} c.
Arguments is_render {INode Options} c.

(** The first of three lookups that is defined. *)
Definition first_defined (a b c : option jsval) : option jsval :=
  match a, b with
  | Some v, _ => Some v
  | None, Some v => Some v
  | None, None => c
  end.

(** ** Sample data for the examples below *)

Definition nl : string := String newline EmptyString.

(** A block whose front-matter gives [markmap] a mapping. *)
Definition body_mapping : string :=
  "---" ++ nl ++ "markmap:" ++ nl ++ "  height: 300" ++ nl ++ "---" ++ nl
  ++ "# Title" ++ nl.

(** A block whose front-matter gives [markmap] a number. *)
Definition body_scalar : string :=
  "---" ++ nl ++ "markmap: 5" ++ nl ++ "---" ++ nl ++ "# Title" ++ nl.

Definition fence_open : string := "```markmap" ++ nl.
Definition fence_close : string := "```" ++ nl.

Definition note_mapping : Editor :=
  {| doc := "intro" ++ nl ++ fence_open ++ body_mapping ++ fence_close ++ "outro" ++ nl |}.
Definition note_scalar : Editor :=
  {| doc := fence_open ++ body_scalar ++ fence_close |}.

(** A reader and a printer for the front-matter of the sample blocks: one
    [markmap] entry, either a number or a mapping with a [height]. *)
Fixpoint read_digits (acc : Z) (s : string) : Z * string :=
  match s with
  | String c rest =>
      let n := nat_of_ascii c in
      if (48 <=? n)%nat && (n <=? 57)%nat
      then read_digits (10 * acc + Z.of_nat (n - 48)) rest
      else (acc, s)
  | EmptyString => (acc, s)
  end.

(** [s] without its prefix [p]. *)
Definition strip (p s : string) : option string :=
  if Str.starts_with p s then Some (Str.drop (String.length p) s) else None.

(** A number and the end of the front-matter, then the body. *)
Definition number_then_body (s : string) : option (Z * string) :=
  let (n, rest) := read_digits 0 s in
  match strip (nl ++ "---" ++ nl) rest with
  | Some body => Some (n, body)
  | None => None
  end.

Definition sample_matter (text : string) : GrayMatterFile :=
  let plain := {| content := text; data := ∅ |} in
  match strip ("---" ++ nl ++ "markmap:" ++ nl ++ "  height: ") text with
  | Some rest =>
      match number_then_body rest with
      | Some (h, body) =>
          {| content := body;
             data := {[ "markmap" := JObj {[ "height" := JNum h ]} ]} |}
      | None => plain
      end
  | None =>
      match strip ("---" ++ nl ++ "markmap: ") text with
      | Some rest =>
          match number_then_body rest with
          | Some (n, body) =>
              {| content := body; data := {[ "markmap" := JNum n ]} |}
          | None => plain
          end
      | None => plain
      end
  end.

Definition sample_stringify (content : string) (d : obj) : string :=
  match get d "markmap" with
  | JObj o =>
      match get o "height" with
      | JNum h =>
          "---" ++ nl ++ "markmap:" ++ nl ++ "  height: " ++ pretty h ++ nl
          ++ "---" ++ nl ++ content
      | _ => content
      end
  | _ => content
  end.

Definition sample_manager (pending : option Z) : SettingsManager :=
  {| newHeight := pending;
     settings := {| global := {[ "highlight" := JBool true ]};
                    file := ∅;
                    codeBlock := {[ "height" := JNum 300 ]} |} |}.

(** ** Facts about the editor model *)

Lemma posToOffset_EditorLine d n :
  posToOffset d (EditorLine n) = lineStartOffset n d.
Proof. unfold posToOffset, EditorLine. simpl. lia. Qed.

Lemma lineStartOffset_mono d : forall l1 l2,
  l1 <= l2 -> lineStartOffset l1 d <= lineStartOffset l2 d.
Proof.
  induction d as [|c rest IH]; intros l1 l2 Hle.
  - destruct l1, l2; simpl; lia.
  - destruct l1 as [|l1]; [simpl; lia|].
    destruct l2 as [|l2]; [lia|].
    cbn [lineStartOffset].
    apply le_n_S. destruct (Ascii.eqb c newline); apply IH; lia.
Qed.

(** ** Facts about the height getter and setter *)

Lemma height_cases m :
  height m =
  match newHeight m with
  | Some h => JNum h
  | None =>
      if nullish (get (codeBlock (settings m)) "height")
      then JNum DEFAULT_HEIGHT
      else get (codeBlock (settings m)) "height"
  end.
Proof.
  unfold height, coalesce. destruct (newHeight m) as [h|]; simpl; [reflexivity|].
  destruct (get (codeBlock (settings m)) "height"); reflexivity.
Qed.

Lemma set_height_pending h m :
  newHeight (set_height h m)
  = if strict_eq_num h (get (codeBlock (settings m)) "height") then None else Some h.
Proof.
  unfold set_height.
  destruct (strict_eq_num h (get (codeBlock (settings m)) "height")); reflexivity.
Qed.

Lemma set_height_settings h m : settings (set_height h m) = settings m.
Proof.
  unfold set_height.
  destruct (strict_eq_num h (get (codeBlock (settings m)) "height")); reflexivity.
Qed.

Lemma get_insert_eq (o : obj) k v : get (<[k := v]> o) k = v.
Proof. unfold get. now rewrite lookup_insert_eq. Qed.

Lemma get_insert_ne (o : obj) k k' v : k <> k' -> get (<[k := v]> o) k' = get o k'.
Proof. intros Hne. unfold get. now rewrite lookup_insert_ne. Qed.

Lemma markmap_or_empty_object d :
  object_or_nullish (get d "markmap") = true ->
  get (markmap_or_empty d) "markmap" = JObj (markmap_props d)
  /\ forall k, k <> "markmap" -> markmap_or_empty d !! k = d !! k.
Proof.
  unfold markmap_or_empty, markmap_props. intros Hok.
  destruct (get d "markmap") eqn:E; simpl in *; try discriminate.
  - rewrite get_insert_eq. split; [reflexivity|].
    intros k Hk. now rewrite lookup_insert_ne.
  - rewrite get_insert_eq. split; [reflexivity|].
    intros k Hk. now rewrite lookup_insert_ne.
  - rewrite E. split; [reflexivity|]. reflexivity.
Qed.


Example merged_sample_pending :
  merged (sample_manager (Some 420%Z)) !! "height" = Some (JNum 420)
  /\ merged (sample_manager None) !! "height" = Some (JNum 300)
  /\ merged (sample_manager None) !! "highlight" = Some (JBool true).
Proof. repeat split; vm_compute; reflexivity. Qed.

Example merged_default_height :
  merged {| newHeight := None;
            settings := {| global := ∅; file := ∅;
                           codeBlock := {[ "height" := JNull ]} |} |}
  !! "height" = Some (JNum 150).
Proof. vm_compute. reflexivity. Qed.

Example set_height_examples :
  newHeight (set_height 300 (sample_manager (Some 420%Z))) = None
  /\ newHeight (set_height 301 (sample_manager None)) = Some 301%Z.
Proof. split; vm_compute; reflexivity. Qed.

(** ** The claims about the SettingsManager *)

(** C2. [merged] is the spread of the three layers with the height on top:
    on every key but ["height"] it is the code-block value if the code block
    has the key, else the file value, else the global value; on ["height"] it
    is the pending height when one is set, else the code block's [height]
    when that is neither undefined nor null, else 150.  Reading [merged]
    leaves the manager as it was. *)
Theorem merged_layers_then_height (m : SettingsManager) :
  (forall k : string,
      merged m !! k =
      if decide (k = "height") then Some (height m)
      else first_defined (codeBlock (settings m) !! k)
                         (file (settings m) !! k)
                         (global (settings m) !! k))
  /\ height m =
     match newHeight m with
     | Some h => JNum h
     | None =>
         if nullish (get (codeBlock (settings m)) "height")
         then JNum 150
         else get (codeBlock (settings m)) "height"
     end
  /\ fst (read_merged m) = merged m
  /\ snd (read_merged m) = m.
Proof.
  split; [|split; [apply height_cases|split; reflexivity]].
  intros k. unfold merged. case_decide as Hk.
  - subst k. apply lookup_insert_eq.
  - rewrite lookup_insert_ne by congruence.
    rewrite !lookup_union. unfold first_defined.
    destruct (codeBlock (settings m) !! k), (file (settings m) !! k),
      (global (settings m) !! k); reflexivity.
Qed.

(** C9. After [height = h] the getter returns [h]; the pending height is
    cleared by the assignment exactly when [h] is the code block's persisted
    height, and then the next [saveHeight] returns at once with the manager
    and the editor as they were. *)
Theorem height_assignment_read_back
    (GrayMatter : string -> GrayMatterFile)
    (GrayMatter_stringify : string -> obj -> string)
    (m : SettingsManager) (h : Z) (info : SectionInfo) (editor : Editor) :
  height (set_height h m) = JNum h
  /\ (newHeight (set_height h m) = None
      <-> get (codeBlock (settings m)) "height" = JNum h)
  /\ (get (codeBlock (settings m)) "height" = JNum h ->
      saveHeight GrayMatter GrayMatter_stringify (set_height h m) info editor
      = Returned (set_height h m, editor)).
Proof.
  pose proof (strict_eq_num_spec h (get (codeBlock (settings m)) "height")) as Hs.
  split; [|split].
  - rewrite height_cases, set_height_pending, set_height_settings.
    destruct (strict_eq_num h (get (codeBlock (settings m)) "height")) eqn:E;
      [|reflexivity].
    destruct Hs as [Hs _]. rewrite (Hs eq_refl). reflexivity.
  - rewrite set_height_pending.
    destruct (strict_eq_num h (get (codeBlock (settings m)) "height")).
    + split; [intros _; now apply Hs|reflexivity].
    + split; [discriminate|]. intros Heq. apply Hs in Heq. discriminate.
  - intros Heq. unfold saveHeight. rewrite set_height_pending.
    apply Hs in Heq. now rewrite Heq.
Qed.


(** After [d.markmap ??= {}] the assignment of [height] gives the
    front-matter the claim asks for. *)
Lemma assign_markmap_height_object (h : jsval) (d : obj) :
  object_or_nullish (get d "markmap") = true ->
  assign_markmap_height h (markmap_or_empty d) = Returned (with_markmap_height h d).
Proof.
  unfold assign_markmap_height, markmap_or_empty, with_markmap_height, markmap_props.
  intros Hok. destruct (get d "markmap") eqn:E; simpl in *; try discriminate.
  - rewrite get_insert_eq. now rewrite insert_insert_eq.
  - rewrite get_insert_eq. now rewrite insert_insert_eq.
  - rewrite E. reflexivity.
Qed.



(** What the sample note reads after that save. *)
Example saveHeight_sample_document :
  option_map doc
    (match saveHeight sample_matter sample_stringify (sample_manager (Some 420%Z))
             {| lineStart := 1; lineEnd := 7 |} note_mapping with
     | Returned (_, editor) => Some editor
     | Threw _ => None
     end)
  = Some ("intro" ++ nl ++ fence_open
          ++ "---" ++ nl ++ "markmap:" ++ nl ++ "  height: 420" ++ nl ++ "---" ++ nl
          ++ "# Title" ++ nl ++ fence_close ++ "outro" ++ nl).
Proof. vm_compute. reflexivity. Qed.

(** ** The claims about the renderer *)

Section RendererFacts.

Context {INode Options : Type}.
Variable readMarkdown : string -> INode * obj.
Variable getOptions : obj -> Options.
Variable highlight : string.

Local Abbreviation Renderer := (Renderer INode Options).

Lemma render_keeps (r : Renderer) :
  rootNode (render getOptions highlight r) = rootNode r
  /\ settingsManager (render getOptions highlight r) = settingsManager r
  /\ List.filter is_read (calls (render getOptions highlight r))
     = List.filter is_read (calls r).
Proof.
  unfold render; cbn. repeat split.
  rewrite List.filter_app. cbn. apply app_nil_r.
Qed.

Lemma apply_op_keeps (r : Renderer) (o : op) :
  rootNode (apply_op getOptions highlight r o) = rootNode r
  /\ List.filter is_read (calls (apply_op getOptions highlight r o))
     = List.filter is_read (calls r).
Proof.
  destruct o; cbn [apply_op];
    unfold updateGlobalSettings, updateFileSettings;
    try (destruct (render_keeps r) as (? & _ & ?); split; assumption);
    try (split; reflexivity).
  - destruct (render_keeps
                (with_manager (set_global s (settingsManager r)) r))
      as (H1 & _ & H2).
    split; [exact H1|exact H2].
  - destruct (render_keeps
                (with_manager (set_file s (settingsManager r)) r))
      as (H1 & _ & H2).
    split; [exact H1|exact H2].
Qed.

Lemma run_keeps (ops : list op) : forall r : Renderer,
  rootNode (run getOptions highlight ops r) = rootNode r
  /\ List.filter is_read (calls (run getOptions highlight ops r))
     = List.filter is_read (calls r).
Proof.
  unfold run.
  induction ops as [|o ops IH]; intros r; [split; reflexivity|].
  cbn [fold_left].
  destruct (IH (apply_op getOptions highlight r o)) as [H1 H2].
  destruct (apply_op_keeps r o) as [H3 H4].
  split; congruence.
Qed.

Lemma constructed_renderer markdown parentClasses g f :
  rootNode (CodeBlockRenderer readMarkdown getOptions highlight
              markdown parentClasses g f)
  = fst (readMarkdown markdown)
  /\ List.filter is_read
       (calls (CodeBlockRenderer readMarkdown getOptions highlight
                 markdown parentClasses g f))
     = [ReadMarkdown markdown].
Proof.
  unfold CodeBlockRenderer. destruct (readMarkdown markdown) as [root cbs].
  split; reflexivity.
Qed.


(** C7. [updateGlobalSettings] replaces the global layer and nothing else of
    the manager, [updateFileSettings] the file layer and nothing else: the
    other two layers and the pending height are as before.  Each adds exactly
    one call to the markmap, the [setData] of its one render, made with the
    options of the updated settings. *)
Theorem update_settings_frame (s : obj) (r : Renderer) :
  let g := updateGlobalSettings getOptions highlight s r in
  let f := updateFileSettings getOptions highlight s r in
  (global (settings (settingsManager g)) = s
   /\ file (settings (settingsManager g)) = file (settings (settingsManager r))
   /\ codeBlock (settings (settingsManager g))
      = codeBlock (settings (settingsManager r))
   /\ newHeight (settingsManager g) = newHeight (settingsManager r)
   /\ calls g = (calls r ++ [SetData (rootNode r)
                                     (getOptions (merged (settingsManager g)))])%list
   /\ length (List.filter is_render (calls g))
      = S (length (List.filter is_render (calls r))))
  /\ (file (settings (settingsManager f)) = s
      /\ global (settings (settingsManager f))
         = global (settings (settingsManager r))
      /\ codeBlock (settings (settingsManager f))
         = codeBlock (settings (settingsManager r))
      /\ newHeight (settingsManager f) = newHeight (settingsManager r)
      /\ calls f = (calls r ++ [SetData (rootNode r)
                                        (getOptions (merged (settingsManager f)))])%list
      /\ length (List.filter is_render (calls f))
         = S (length (List.filter is_render (calls r)))).
Proof.
  cbv zeta. unfold updateGlobalSettings, updateFileSettings, render.
  cbn [calls settingsManager with_manager set_global set_file settings
       global file codeBlock newHeight rootNode].
  repeat split;
    rewrite List.filter_app, length_app; cbn [List.filter is_render length]; lia.
Qed.

End RendererFacts.

(** C9 on a sample manager: dragging back to the persisted 300 clears the
    pending height, and the save that follows changes nothing. *)
Lemma height_assignment_read_back_sample :
  saveHeight sample_matter sample_stringify
    (set_height 300 (sample_manager (Some 420%Z)))
    {| lineStart := 1; lineEnd := 7 |} note_mapping
  = Returned (set_height 300 (sample_manager (Some 420%Z)), note_mapping).
Proof.
  destruct (height_assignment_read_back sample_matter sample_stringify
              (sample_manager (Some 420%Z)) 300
              {| lineStart := 1; lineEnd := 7 |} note_mapping)
    as [_ [_ Hsave]].
  apply Hsave. reflexivity.
Defined.


End CodeBlock.

(* ===================================================================== *)
(** * The Mindmap view *)
(* ===================================================================== *)

Module MindmapView.
Import JS.

(** ** Colours by depth *)

(** The fields of [MindMapSettings] that [applyColor] reads. *)
Record MindMapSettings : Type := {
  onlyUseDefaultColor : bool;
  defaultColor : string;
  color1 : string;
  color2 : string;
  color3 : string
}.

(** [frontmatterColors?.length] used as a condition. *)
Definition has_length (frontmatterColors : option (list string)) : bool :=
  match frontmatterColors with
  | Some l => negb (length l =? 0)%nat
  | None => false
  end.

(** [applyColor(frontmatterColors)] applied to a node of depth [depth] (the
    root has depth 0).  An index outside an array reads [undefined], here
    [None]. *)
Definition applyColor (settings : MindMapSettings)
    (frontmatterColors : option (list string)) (depth : nat) : option string :=
  if onlyUseDefaultColor settings then Some (defaultColor settings)
  else
    let colors :=
      if has_length frontmatterColors
      then match frontmatterColors with Some l => l | None => [] end
      else [color1 settings; color2 settings; color3 settings] in
    if has_length frontmatterColors
    then colors !! (depth mod length colors)
    else if (depth <? length colors)%nat
         then colors !! depth
         else Some (defaultColor settings).

(** The claim's wording for the case without front-matter colours. *)
Definition settings_color (settings : MindMapSettings) (depth : nat) : string :=
  match depth with
  | 0 => color1 settings
  | 1 => color2 settings
  | 2 => color3 settings
  | _ => defaultColor settings
  end.

Definition sample_settings : MindMapSettings :=
  {| onlyUseDefaultColor := false; defaultColor := "grey";
     color1 := "red"; color2 := "green"; color3 := "blue" |}.

(** ** Event emitters of the host *)

Inductive emitter : Type := TheWorkspace | TheLeaf.

(** What a registered callback does when its event fires. *)
Inductive handler : Type :=
| DebouncedUpdate
| CheckAndUpdate
| UpdateLinkedLeaf.

(** An [EventRef]: the emitter, the event name, the callback, and the
    identity of the reference object itself. *)
Record EventRef : Type := {
  e : emitter;
  name : string;
  fn : handler;
  ref_id : nat
}.

Global Instance emitter_eq_dec : EqDecision emitter.
Proof. solve_decision. Defined.
Global Instance handler_eq_dec : EqDecision handler.
Proof. solve_decision. Defined.
Global Instance EventRef_eq_dec : EqDecision EventRef.
Proof. solve_decision. Defined.

(** The handler tables of the workspace and of the view's leaf, and the
    counter that numbers new reference objects. *)
Record Emitters : Type := {
  workspaceEvents : list EventRef;
  leafEvents : list EventRef;
  next_ref : nat
}.

(** [emitter.on(name, callback)]. *)
Definition on (em : emitter) (nm : string) (h : handler) (w : Emitters)
  : EventRef * Emitters :=
  let r := {| e := em; name := nm; fn := h; ref_id := next_ref w |} in
  (r,
   match em with
   | TheWorkspace =>
       {| workspaceEvents := workspaceEvents w ++ [r];
          leafEvents := leafEvents w;
          next_ref := S (next_ref w) |}
   | TheLeaf =>
       {| workspaceEvents := workspaceEvents w;
          leafEvents := leafEvents w ++ [r];
          next_ref := S (next_ref w) |}
   end).

(** [workspace.offref(ref)] of the host's [Events] class: the reference
    object is removed from the table of the emitter the method is called on,
    here the workspace.  A reference that is not in that table leaves it as
    it is. *)
Definition workspace_offref (r : EventRef) (w : Emitters) : Emitters :=
  {| workspaceEvents := List.filter (fun x => negb (bool_decide (x = r))) (workspaceEvents w);
     leafEvents := leafEvents w;
     next_ref := next_ref w |}.

(** The registrations of [setListenersUp], in source order. *)
Definition registrations : list (emitter * string * handler) :=
  [ (TheWorkspace, "quick-preview", DebouncedUpdate);
    (TheWorkspace, "resize", CheckAndUpdate);
    (TheWorkspace, "active-leaf-change", CheckAndUpdate);
    (TheWorkspace, "layout-change", CheckAndUpdate);
    (TheWorkspace, "css-change", CheckAndUpdate);
    (TheWorkspace, "file-menu", CheckAndUpdate);
    (TheWorkspace, "editor-menu", CheckAndUpdate);
    (TheWorkspace, "editor-paste", CheckAndUpdate);
    (TheWorkspace, "editor-drop", CheckAndUpdate);
    (TheWorkspace, "codemirror", CheckAndUpdate);
    (TheLeaf, "group-change", UpdateLinkedLeaf) ].

(** The array literal of [setListenersUp] evaluated left to right: the
    references so far and the emitters after the registrations. *)
Fixpoint register_all (regs : list (emitter * string * handler)) (w : Emitters)
  : list EventRef * Emitters :=
  match regs with
  | [] => ([], w)
  | (em, nm, h) :: rest =>
      let (r, w1) := on em nm h w in
      let (rs, w2) := register_all rest w1 in
      (r :: rs, w2)
  end.

(** [setListenersUp]: the new value of [this.listeners] and the emitters. *)
Definition setListenersUp (w : Emitters) : list EventRef * Emitters :=
  register_all registrations w.

(** [onClose]: [this.listeners.forEach(l => this.workspace.offref(l))]. *)
Definition onClose (listeners : list EventRef) (w : Emitters) : Emitters :=
  fold_left (fun acc l => workspace_offref l acc) listeners w.

Definition on_workspace (r : EventRef) : bool := bool_decide (e r = TheWorkspace).

(** The workspace events whose listener is [checkAndUpdate]. *)
Definition checked_events : list string :=
  [ "resize"; "active-leaf-change"; "layout-change"; "css-change";
    "file-menu"; "editor-menu"; "editor-paste"; "editor-drop"; "codemirror" ].

(** A workspace on which nothing is registered yet. *)
Definition no_listeners : Emitters :=
  {| workspaceEvents := []; leafEvents := []; next_ref := 0 |}.

(** ** The workspace as the view sees it *)

Record FileInfo : Type := { path : string; basename : string }.

(** A view of a leaf: [getViewType()] and, for file views, [file]. *)
Record ViewObject : Type := { viewType : string; file : option FileInfo }.

Record WorkspaceLeaf : Type := { view : option ViewObject }.

(** [this.app]: the leaf objects by reference, the active leaf, and the
    files the vault adapter can read. *)
Record App : Type := {
  leaves : nat -> WorkspaceLeaf;
  activeLeaf : option nat;
  files : gmap string string
}.

(** The fields of the view that the update path reads and writes. *)
Record View : Type := {
  filePath : string;
  fileName : string;
  currentMd : option string;
  linkedLeaf : option nat;
  isLeafPinned : bool;
  displayText : option string
}.

(** What a method does to the outside, in order. *)
Inductive effect : Type :=
| UpdateCalled (markdown : option string)
| ConsoleError (err : error)
| ConsoleLog (err : error).

(** A method body: it runs on the view, returns or throws, and leaves the
    view (changed up to the throw) and its effects. *)
Definition M (A : Type) : Type := View -> completion A * View * list effect.

Definition ret {A} (a : A) : M A := fun v => (Returned a, v, []).
Definition throw {A} (err : error) : M A := fun v => (Threw err, v, []).
Definition bind {A B} (m : M A) (k : A -> M B) : M B :=
  fun v =>
    match m v with
    | (Returned a, v1, t1) =>
        match k a v1 with
        | (r, v2, t2) => (r, v2, (t1 ++ t2)%list)
        end
    | (Threw err, v1, t1) => (Threw err, v1, t1)
    end.
Definition try_catch {A} (m : M A) (h : error -> M A) : M A :=
  fun v =>
    match m v with
    | (Returned a, v1, t1) => (Returned a, v1, t1)
    | (Threw err, v1, t1) =>
        match h err v1 with
        | (r, v2, t2) => (r, v2, (t1 ++ t2)%list)
        end
    end.
Definition emit (x : effect) : M unit := fun v => (Returned tt, v, [x]).
Definition this : M View := fun v => (Returned v, v, []).
Definition assign (f : View -> View) : M unit := fun v => (Returned tt, f v, []).

Notation "'let!' x ':=' m 'in' k" := (bind m (fun x => k))
  (at level 10, x name, m at level 100, k at level 200).
Notation "'do!' m 'in' k" := (bind m (fun _ => k))
  (at level 10, m at level 100, k at level 200).

Definition set_linkedLeaf (l : option nat) (v : View) : View :=
  {| filePath := filePath v; fileName := fileName v; currentMd := currentMd v;
     linkedLeaf := l; isLeafPinned := isLeafPinned v;
     displayText := displayText v |}.

Definition set_file_info (fi : FileInfo) (v : View) : View :=
  {| filePath := path fi; fileName := basename fi; currentMd := currentMd v;
     linkedLeaf := linkedLeaf v; isLeafPinned := isLeafPinned v;
     displayText := displayText v |}.

Definition set_currentMd (md : string) (v : View) : View :=
  {| filePath := filePath v; fileName := fileName v; currentMd := Some md;
     linkedLeaf := linkedLeaf v; isLeafPinned := isLeafPinned v;
     displayText := displayText v |}.

Definition set_displayText (t : string) (v : View) : View :=
  {| filePath := filePath v; fileName := fileName v; currentMd := currentMd v;
     linkedLeaf := linkedLeaf v; isLeafPinned := isLeafPinned v;
     displayText := Some t |}.

(** [a != b] for an optional string against a string. *)
Definition differs (a : option string) (b : string) : bool :=
  match a with
  | Some x => negb (String.eqb x b)
  | None => true
  end.

(** [!this.currentMd]. *)
Definition no_markdown (md : option string) : bool :=
  match md with
  | Some x => String.eqb x ""
  | None => true
  end.

Section Update.

(** [MD_VIEW_TYPE] of the constants module. *)
Variable MD_VIEW_TYPE : string.
(** What [update] does between reading the Markdown and setting the display
    text: [transformMarkdown], [deriveOptions], the asset loaders, and the
    call of [renderMarkmap].  It returns or throws; a throw is one of the
    transformer, of [deriveOptions] or of a loader, since [renderMarkmap] is
    an async method that is not awaited and whose body is one [try] block:
    nothing thrown inside it reaches [update]. *)
Variable transform_and_render : string -> completion unit.
Variable app : App.

(** [this.app.workspace.activeLeaf?.view?.getViewType()]. *)
Definition active_view_type : option string :=
  match activeLeaf app with
  | Some l =>
      match view (leaves app l) with
      | Some vw => Some (viewType vw)
      | None => None
      end
  | None => None
  end.

Definition getLeafTarget : M (option nat) :=
  let! v := this in
  do! (if isLeafPinned v then ret tt
       else assign (set_linkedLeaf (activeLeaf app))) in
  let! v := this in
  ret (match linkedLeaf v with
       | Some l => Some l
       | None => activeLeaf app
       end).

Definition readFilePath : M bool :=
  let! target := getLeafTarget in
  match target with
  | None => throw (TypeError "Cannot read properties of null (reading 'view')")
  | Some l =>
      match view (leaves app l) with
      | None => throw (TypeError "Cannot read properties of null (reading 'file')")
      | Some vw =>
          match file vw with
          | None =>
              throw (TypeError "Cannot read properties of undefined (reading 'path')")
          | Some fileInfo =>
              let! v := this in
              let pathHasChanged := negb (String.eqb (filePath v) (path fileInfo)) in
              do! assign (set_file_info fileInfo) in
              ret pathHasChanged
          end
      end
  end.

(** [this.app.vault.adapter.read(path)]. *)
Definition adapter_read (p : string) : M string :=
  match files app !! p with
  | Some md => ret md
  | None => throw (Error "ENOENT: no such file or directory")
  end.

(** [readMarkDown]: [undefined] is returned after a failed read. *)
Definition readMarkDown : M (option bool) :=
  try_catch
    (let! v := this in
     let! md := adapter_read (filePath v) in
     let! v := this in
     let markDownHasChanged := differs (currentMd v) md in
     do! assign (set_currentMd md) in
     ret (Some markDownHasChanged))
    (fun err => do! emit (ConsoleLog err) in ret None).

Definition update (markdown : option string) : M unit :=
  do! emit (UpdateCalled markdown) in
  do! (match markdown with
       | Some md =>
           if negb (String.eqb md "") then assign (set_currentMd md)
           else (do! readMarkDown in ret tt)
       | None => do! readMarkDown in ret tt
       end) in
  let! v := this in
  match currentMd v with
  | Some md =>
      if String.eqb md "" then ret tt
      else
        match transform_and_render md with
        | Threw err => throw err
        | Returned _ => assign (set_displayText ("Mind Map of " ++ fileName v))
        end
  | None => ret tt
  end.

(** The value of [pathHasChanged || markDownHasChanged]. *)
Definition or_else (a : bool) (b : option bool) : option bool :=
  if a then Some true else b.

Definition checkActiveLeaf : M (option bool) :=
  match active_view_type with
  | Some ty =>
      if String.eqb ty MD_VIEW_TYPE
      then
        let! pathHasChanged := readFilePath in
        let! markDownHasChanged := readMarkDown in
        ret (or_else pathHasChanged markDownHasChanged)
      else ret (Some false)
  | None => ret (Some false)
  end.

(** The body of the [try] block of [checkAndUpdate]. *)
Definition check_then_update : M unit :=
  let! updateRequired := checkActiveLeaf in
  match updateRequired with
  | Some true => update None
  | _ => ret tt
  end.

Definition checkAndUpdate : M unit :=
  try_catch check_then_update (fun err => emit (ConsoleError err)).

(** The claim's condition, in its words.  The leaf whose file is tracked is
    the linked leaf of a pinned view, else the active leaf. *)
Definition tracked_leaf (v : View) : option nat :=
  if isLeafPinned v
  then match linkedLeaf v with Some l => Some l | None => activeLeaf app end
  else activeLeaf app.

Definition tracked_file (v : View) : option FileInfo :=
  match tracked_leaf v with
  | Some l =>
      match view (leaves app l) with
      | Some vw => file vw
      | None => None
      end
  | None => None
  end.

Definition active_is_markdown : bool :=
  match active_view_type with
  | Some ty => String.eqb ty MD_VIEW_TYPE
  | None => false
  end.

Definition path_changed (v : View) (fi : FileInfo) : bool :=
  negb (String.eqb (filePath v) (path fi)).

Definition markdown_changed (v : View) (fi : FileInfo) : bool :=
  match files app !! path fi with
  | Some md => differs (currentMd v) md
  | None => false
  end.

Definition update_due (v : View) : bool :=
  active_is_markdown &&
  match tracked_file v with
  | Some fi => path_changed v fi || markdown_changed v fi
  | None => false
  end.

(** The view after [getLeafTarget]. *)
Definition retargeted (v : View) : View :=
  if isLeafPinned v then v else set_linkedLeaf (activeLeaf app) v.

Definition is_update (x : effect) : bool :=
  match x with UpdateCalled _ => true | _ => false end.

End Update.

(** A workspace with one Markdown leaf, active, showing [a.md]; the view
    still tracks [b.md] and has read nothing yet. *)
Definition sample_app : App :=
  {| leaves := fun l =>
       {| view := if (l =? 1)%nat
                  then Some {| viewType := "markdown";
                               file := Some {| path := "a.md"; basename := "a" |} |}
                  else None |};
     activeLeaf := Some 1;
     files := {[ "a.md" := "# A" ]} |}.

Definition sample_view : View :=
  {| filePath := "b.md"; fileName := "b"; currentMd := None;
     linkedLeaf := None; isLeafPinned := false; displayText := None |}.

(** The effects of one run of [checkAndUpdate] and of a second run on the
    view the first one left. *)
Definition two_checks (transform_and_render : string -> completion unit)
  : list effect * list effect :=
  match checkAndUpdate "markdown" transform_and_render sample_app sample_view with
  | (_, v1, t1) =>
      match checkAndUpdate "markdown" transform_and_render sample_app v1 with
      | (_, _, t2) => (t1, t2)
      end
  end.

(** ** The debounced quick-preview listener

    Time is counted in milliseconds.  The state holds the closure variable
    [lastTimeout], the window's pending timers that the listener created, and
    the timer callbacks that are suspended in [await this.update(content)]
    while [update] waits for the file read of [readMarkDown]. *)

Record Timer : Type := { timer_id : nat; due : nat; content : string }.

Record Debounce : Type := {
  lastTimeout : option nat;      (* number | undefined *)
  timers : list Timer;           (* pending, oldest first *)
  next_timer : nat;              (* the id the next setTimeout returns *)
  suspended : nat;               (* callbacks waiting on a file read *)
  updates : list string          (* arguments of the calls to update *)
}.

Definition DELAY : nat := 300.

(** The state when the listener is registered; timer ids are positive. *)
Definition idle : Debounce :=
  {| lastTimeout := None; timers := []; next_timer := 1;
     suspended := 0; updates := [] |}.

(** [window.clearTimeout(id)]. *)
Definition clearTimeout (id : nat) (ts : list Timer) : list Timer :=
  List.filter (fun tm => negb (timer_id tm =? id)%nat) ts.

(** The listener body, run at time [now] with the event's content. *)
Definition on_quick_preview (now : nat) (c : string) (s : Debounce) : Debounce :=
  let kept :=
    match lastTimeout s with
    | Some id => if negb (id =? 0)%nat then clearTimeout id (timers s) else timers s
    | None => timers s
    end in
  let id := next_timer s in
  {| lastTimeout := Some id;
     timers := kept ++ [{| timer_id := id; due := now + DELAY; content := c |}];
     next_timer := S id;
     suspended := suspended s;
     updates := updates s |}.

Definition with_lastTimeout (l : option nat) (s : Debounce) : Debounce :=
  {| lastTimeout := l; timers := timers s; next_timer := next_timer s;
     suspended := suspended s; updates := updates s |}.

Section Debounced.

(** Whether [update(content)] resolves (it rejects when the transformer
    throws) for a content that needs no file read. *)
Variable update_resolves : string -> bool.

(** The timer callback [async () => { await this.update(content);
    lastTimeout = undefined }].  [update] is called at once.  With a
    non-empty content it finishes in the same task and the assignment
    follows if it resolved.  With an empty content [update] awaits the file
    read, and the callback stays suspended until the read is done. *)
Definition fire (tm : Timer) (s : Debounce) : Debounce :=
  let s1 :=
    {| lastTimeout := lastTimeout s;
       timers := clearTimeout (timer_id tm) (timers s);
       next_timer := next_timer s;
       suspended := suspended s;
       updates := updates s ++ [content tm] |} in
  if String.eqb (content tm) ""
  then {| lastTimeout := lastTimeout s1; timers := timers s1;
          next_timer := next_timer s1; suspended := S (suspended s1);
          updates := updates s1 |}
  else if update_resolves (content tm)
       then with_lastTimeout None s1
       else s1.

(** A suspended callback resumes after its file read: [update] finishes,
    and if it resolved, [lastTimeout = undefined] runs. *)
Definition read_done (resolved : bool) (s : Debounce) : Debounce :=
  match suspended s with
  | O => s
  | S n =>
      let s1 :=
        {| lastTimeout := lastTimeout s; timers := timers s;
           next_timer := next_timer s; suspended := n; updates := updates s |} in
      if resolved then with_lastTimeout None s1 else s1
  end.

(** The timers due at [now] fire, oldest first (all have the same delay). *)
Definition fire_due (now : nat) (s : Debounce) : Debounce :=
  fold_left (fun acc tm => fire tm acc)
            (List.filter (fun tm => (due tm <=? now)%nat) (timers s)) s.

(** What the environment does, with its time. *)
Inductive action : Type :=
| QuickPreview (t : nat) (c : string)
| ReadDone (t : nat) (resolved : bool).

Definition step (s : Debounce) (a : action) : Debounce :=
  match a with
  | QuickPreview t c => on_quick_preview t c (fire_due t s)
  | ReadDone t resolved => read_done resolved (fire_due t s)
  end.

Definition run_trace (tr : list action) (s : Debounce) : Debounce :=
  fold_left step tr s.

(** Time passes until no timer is pending. *)
Definition settle (s : Debounce) : Debounce :=
  fold_left (fun acc tm => fire tm acc) (timers s) s.

(** Events of one burst after an event at time [t]: in time order, each
    less than [DELAY] after the one before. *)
Fixpoint spaced (t : nat) (evs : list (nat * string)) : Prop :=
  match evs with
  | [] => True
  | (t', _) :: rest => t <= t' /\ t' < t + DELAY /\ spaced t' rest
  end.

Definition as_actions (evs : list (nat * string)) : list action :=
  List.map (fun ev => QuickPreview (fst ev) (snd ev)) evs.

(** One timer is pending, for the event [(t, c)], and [lastTimeout] holds
    its id; no callback is suspended. *)
Definition armed (t : nat) (c : string) (s : Debounce) : Prop :=
  exists id, id <> 0
             /\ lastTimeout s = Some id
             /\ timers s = [{| timer_id := id; due := t + DELAY; content := c |}]
             /\ suspended s = 0
             /\ next_timer s <> 0.

End Debounced.

(** The trace on which the debounce fails: an empty quick-preview at 0 ms
    (its timer fires at 300 ms and [update] starts reading the file), a
    quick-preview ["a"] at 310 ms, the end of the file read at 320 ms, a
    quick-preview ["ab"] at 400 ms. *)
Definition racing_trace : list action :=
  [ QuickPreview 0 "";
    QuickPreview 310 "a";
    ReadDone 320 true;
    QuickPreview 400 "ab" ].

(** ** Colours *)

(** C10. With [onlyUseDefaultColor] the colour is the default colour at every
    depth.  Otherwise a non-empty front-matter list gives its entry at index
    depth modulo length (always an entry of the list), and without such a
    list the colour is [color1], [color2], [color3] at depths 0, 1, 2 and the
    default colour at any greater depth. *)
Theorem applyColor_by_depth (settings : MindMapSettings)
    (frontmatterColors : option (list string)) (depth : nat) :
  applyColor settings frontmatterColors depth =
  (if onlyUseDefaultColor settings then Some (defaultColor settings)
   else match frontmatterColors with
        | Some (c :: l) => (c :: l) !! (depth mod length (c :: l))
        | Some [] | None => Some (settings_color settings depth)
        end)
  /\ (forall c l, exists col : string,
        (c :: l) !! (depth mod length (c :: l)) = Some col /\ col ∈ c :: l).
Proof.
  split.
  - unfold applyColor. destruct (onlyUseDefaultColor settings); [reflexivity|].
    destruct frontmatterColors as [[|c l]|]; cbn [has_length length Nat.eqb negb];
      try reflexivity;
      destruct depth as [|[|[|d]]]; reflexivity.
  - intros c l.
    destruct (lookup_lt_is_Some_2 (c :: l) (depth mod length (c :: l))) as [col Hcol].
    + apply Nat.mod_upper_bound. simpl. lia.
    + exists col. split; [exact Hcol|]. apply list_elem_of_lookup. eauto.
Qed.

(** ** Listeners *)

Lemma onClose_table (ls : list EventRef) : forall w : Emitters,
  workspaceEvents (onClose ls w)
  = List.filter (fun x => negb (bool_decide (x ∈ ls))) (workspaceEvents w).
Proof.
  unfold onClose.
  induction ls as [|l ls IH]; intros w; cbn [fold_left].
  - induction (workspaceEvents w) as [|x xs IHx]; [reflexivity|].
    cbn [List.filter]. rewrite bool_decide_eq_false_2 by apply not_elem_of_nil.
    cbn. now rewrite <- IHx.
  - rewrite IH. cbn [workspace_offref workspaceEvents].
    induction (workspaceEvents w) as [|x xs IHx]; [reflexivity|].
    cbn [List.filter].
    destruct (decide (x = l)) as [->|Hne].
    + rewrite bool_decide_eq_true_2 by reflexivity. cbn [negb].
      rewrite (bool_decide_eq_true_2 (l ∈ l :: ls)) by apply list_elem_of_here.
      cbn [negb]. exact IHx.
    + rewrite (bool_decide_eq_false_2 (x = l)) by assumption. cbn [negb List.filter].
      destruct (decide (x ∈ ls)) as [Hin|Hnin].
      * rewrite (bool_decide_eq_true_2 (x ∈ ls)) by assumption.
        rewrite (bool_decide_eq_true_2 (x ∈ l :: ls))
          by (apply list_elem_of_further; assumption).
        cbn [negb]. exact IHx.
      * rewrite (bool_decide_eq_false_2 (x ∈ ls)) by assumption.
        rewrite (bool_decide_eq_false_2 (x ∈ l :: ls)).
        -- cbn [negb]. now rewrite IHx.
        -- rewrite elem_of_cons. intros [?|?]; contradiction.
Qed.

Lemma register_all_table (regs : list (emitter * string * handler)) :
  forall w : Emitters,
    workspaceEvents (snd (register_all regs w))
    = (workspaceEvents w ++ List.filter on_workspace (fst (register_all regs w)))%list.
Proof.
  induction regs as [|[[em nm] h] rest IH]; intros w; cbn [register_all].
  - cbn. now rewrite app_nil_r.
  - destruct (on em nm h w) as [r w1] eqn:Hon.
    specialize (IH w1). destruct (register_all rest w1) as [rs w2].
    cbn [fst snd] in *. rewrite IH.
    unfold on in Hon. destruct em; injection Hon as <- <-;
      cbn [workspaceEvents List.filter on_workspace e bool_decide decide_rel
           emitter_eq_dec emitter_rec emitter_rect];
      [rewrite <- app_assoc|]; reflexivity.
Qed.

Lemma register_all_ids (regs : list (emitter * string * handler)) :
  forall w : Emitters,
    Forall (fun r => next_ref w <= ref_id r) (fst (register_all regs w)).
Proof.
  induction regs as [|[[em nm] h] rest IH]; intros w; cbn [register_all].
  - constructor.
  - destruct (on em nm h w) as [r w1] eqn:Hon.
    specialize (IH w1). destruct (register_all rest w1) as [rs w2].
    cbn [fst] in *.
    assert (Hr : ref_id r = next_ref w /\ next_ref w1 = S (next_ref w)).
    { unfold on in Hon. destruct em; injection Hon as <- <-; split; reflexivity. }
    destruct Hr as [Hr Hn]. constructor; [lia|].
    eapply Forall_impl; [exact IH|]. cbn. intros x Hx. lia.
Qed.

(** What [onClose] does detach.  The references returned by the ten
    [workspace.on] calls of [setListenersUp] are exactly what it adds to the
    workspace's table, and all of them are in the [listeners] array;
    [onClose] calls [workspace.offref] on every stored reference, and after
    it, whatever happened in between, no stored reference is attached to the
    workspace. *)
Theorem onClose_detaches_workspace_listeners (w : Emitters) :
  let listeners := fst (setListenersUp w) in
  let w1 := snd (setListenersUp w) in
  workspaceEvents w1 = (workspaceEvents w ++ List.filter on_workspace listeners)%list
  /\ List.map name (List.filter on_workspace listeners)
     = ("quick-preview" :: checked_events)
  /\ (forall r, In r (List.filter on_workspace listeners) -> r ∈ listeners)
  /\ (forall (w' : Emitters) (r : EventRef),
        r ∈ listeners -> r ∉ workspaceEvents (onClose listeners w')).
Proof.
  intros listeners w1. split; [|split; [|split]].
  - subst listeners w1. apply register_all_table.
  - reflexivity.
  - clearbody listeners. intros r Hin. apply list_elem_of_In.
    apply List.filter_In in Hin. exact (proj1 Hin).
  - clearbody listeners. clear w1.
    intros w' r Hin Hattached. rewrite onClose_table in Hattached.
    apply list_elem_of_In, List.filter_In in Hattached.
    destruct Hattached as [_ Hb].
    rewrite bool_decide_eq_true_2 in Hb by assumption. discriminate.
Qed.

Lemma onClose_leaf_table (ls : list EventRef) : forall w : Emitters,
  leafEvents (onClose ls w) = leafEvents w.
Proof.
  unfold onClose. induction ls as [|l ls IH]; intros w; cbn [fold_left];
    [reflexivity|].
  now rewrite IH.
Qed.

(** C6.  The claim fails on the code for the eleventh listener.
    [setListenersUp] also registers a [group-change] listener, on the leaf,
    and stores its reference in [listeners] with the others; [onClose] hands
    that reference to [workspace.offref], which looks for it in the
    workspace's table, so the leaf's table is what it was before [onClose]
    and the listener is still attached to the leaf. *)
Theorem onClose_leaves_group_change_attached (w : Emitters) :
  let listeners := fst (setListenersUp w) in
  let w1 := snd (setListenersUp w) in
  let r := {| e := TheLeaf; name := "group-change"; fn := UpdateLinkedLeaf;
              ref_id := 10 + next_ref w |} in
  leafEvents w1 = (leafEvents w ++ [r])%list
  /\ r ∈ listeners
  /\ (forall w' : Emitters, leafEvents (onClose listeners w') = leafEvents w')
  /\ r ∈ leafEvents (onClose listeners w1).
Proof.
  intros listeners w1 r.
  assert (Hleaf : leafEvents w1 = (leafEvents w ++ [r])%list) by reflexivity.
  split; [exact Hleaf|]. split; [|split].
  - subst listeners r. cbn.
    do 10 apply list_elem_of_further. apply list_elem_of_here.
  - intros w'. apply onClose_leaf_table.
  - rewrite onClose_leaf_table, Hleaf. apply elem_of_app. right.
    apply list_elem_of_here.
Qed.

(** A view opened and closed on a workspace and a leaf without listeners:
    the workspace's table is empty again, the leaf still has the view's
    [group-change] listener. *)
Example onClose_on_no_listeners :
  let closed := onClose (fst (setListenersUp no_listeners))
                  (snd (setListenersUp no_listeners)) in
  workspaceEvents closed = []
  /\ leafEvents closed
     = [ {| e := TheLeaf; name := "group-change"; fn := UpdateLinkedLeaf;
            ref_id := 10 |} ].
Proof. split; vm_compute; reflexivity. Qed.

(** When the reference counter is ahead of every reference in the
    workspace's table, [onClose] right after [setListenersUp] puts the table
    back as it was: the listeners of others stay attached. *)
Lemma onClose_keeps_other_listeners (w : Emitters) :
  Forall (fun r => ref_id r < next_ref w) (workspaceEvents w) ->
  workspaceEvents (onClose (fst (setListenersUp w)) (snd (setListenersUp w)))
  = workspaceEvents w.
Proof.
  intros Hfresh. rewrite onClose_table. unfold setListenersUp.
  rewrite register_all_table.
  pose proof (register_all_ids registrations w) as Hids.
  destruct (register_all registrations w) as [ls w1]. cbn [fst snd] in *.
  rewrite List.filter_app.
  assert (Hnew : List.filter (fun x => negb (bool_decide (x ∈ ls)))
                   (List.filter on_workspace ls) = []).
  { assert (Hsub : forall x, In x (List.filter on_workspace ls) -> x ∈ ls).
    { intros x Hx. apply list_elem_of_In. apply List.filter_In in Hx.
      exact (proj1 Hx). }
    induction (List.filter on_workspace ls) as [|x xs IHx]; [reflexivity|].
    cbn [List.filter]. rewrite bool_decide_eq_true_2 by (apply Hsub; now left).
    cbn [negb]. apply IHx. intros y Hy. apply Hsub. now right. }
  rewrite Hnew, app_nil_r.
  induction Hfresh as [|x xs Hx Hxs IHold]; [reflexivity|].
  cbn [List.filter]. rewrite bool_decide_eq_false_2.
  - cbn [negb]. now rewrite IHold.
  - intros Hin. rewrite Forall_forall in Hids. specialize (Hids x Hin). lia.
Qed.

(** ** The update path *)

Section UpdateFacts.

Variable MD_VIEW_TYPE : string.
Variable transform_and_render : string -> completion unit.
Variable app : App.

Local Abbreviation readMarkDown' := (readMarkDown app).
Local Abbreviation readFilePath' := (readFilePath app).
Local Abbreviation update' := (update transform_and_render app).
Local Abbreviation checkActiveLeaf' := (checkActiveLeaf MD_VIEW_TYPE app).
Local Abbreviation checkAndUpdate' := (checkAndUpdate MD_VIEW_TYPE transform_and_render app).

Ltac unfold_m :=
  unfold try_catch, bind, ret, throw, emit, this, assign.

(** [readMarkDown] returns, whatever the read does, and calls no update. *)
Lemma readMarkDown_run (v : View) :
  readMarkDown' v =
  match files app !! filePath v with
  | Some md => (Returned (Some (differs (currentMd v) md)), set_currentMd md v, [])
  | None => (Returned None, v, [ConsoleLog (Error "ENOENT: no such file or directory")])
  end.
Proof.
  unfold readMarkDown, adapter_read. unfold_m.
  destruct (files app !! filePath v); reflexivity.
Qed.

Lemma readFilePath_run (v : View) :
  match tracked_file app v with
  | Some fi =>
      readFilePath' v
      = (Returned (path_changed v fi), set_file_info fi (retargeted app v), [])
  | None => exists err, readFilePath' v = (Threw err, retargeted app v, [])
  end.
Proof.
  unfold tracked_file, tracked_leaf, readFilePath, getLeafTarget, retargeted,
    path_changed.
  unfold_m.
  destruct (isLeafPinned v) eqn:Hpin; cbn.
  - destruct (linkedLeaf v) as [l|]; [|destruct (activeLeaf app) as [l|]];
      try (destruct (view (leaves app l)) as [vw|];
           [destruct (file vw) as [fi|]|]);
      cbn; eauto.
  - destruct (activeLeaf app) as [l|];
      try (destruct (view (leaves app l)) as [vw|];
           [destruct (file vw) as [fi|]|]);
      cbn; eauto.
Qed.

(** [update()] is logged once, at its entry, whether it returns or throws;
    it keeps the tracked path and leaf, and leaves the content of the tracked
    file in [currentMd] when that file can be read. *)
Lemma update_run (v : View) :
  exists r v' t,
    update' None v = (r, v', UpdateCalled None :: t)
    /\ List.filter is_update t = []
    /\ filePath v' = filePath v
    /\ linkedLeaf v' = linkedLeaf v
    /\ isLeafPinned v' = isLeafPinned v
    /\ currentMd v' = match files app !! filePath v with
                      | Some md => Some md
                      | None => currentMd v
                      end.
Proof.
  unfold update. unfold bind at 1. unfold emit at 1. cbn [List.app].
  unfold bind at 1. unfold bind at 1. rewrite readMarkDown_run.
  destruct (files app !! filePath v) as [md0|] eqn:Hfile; unfold_m;
    cbn [currentMd set_currentMd List.app].
  - destruct (String.eqb md0 "");
      [|destruct (transform_and_render md0)];
      do 3 eexists; repeat split; reflexivity.
  - destruct (currentMd v) as [md|] eqn:Hmd;
      [destruct (String.eqb md "");
       [|destruct (transform_and_render md)]|];
      do 3 eexists; repeat split; cbn; (reflexivity || exact Hmd).
Qed.

Lemma tracked_file_same (v v' : View) :
  isLeafPinned v' = isLeafPinned v ->
  (isLeafPinned v = true -> linkedLeaf v' = linkedLeaf v) ->
  tracked_file app v' = tracked_file app v.
Proof.
  intros Hpin Hlink. unfold tracked_file, tracked_leaf. rewrite Hpin.
  destruct (isLeafPinned v); [rewrite Hlink|]; reflexivity.
Qed.

(** A view that stores the path and the readable content of the tracked
    file is not due for an update. *)
Lemma stored_view_rests (v' : View) (fi : FileInfo) :
  tracked_file app v' = Some fi ->
  filePath v' = path fi ->
  (forall md, files app !! path fi = Some md -> currentMd v' = Some md) ->
  update_due MD_VIEW_TYPE app v' = false.
Proof.
  intros Hfile Hpath Hmd. unfold update_due. rewrite Hfile.
  unfold path_changed, markdown_changed. rewrite Hpath, String.eqb_refl.
  cbn [negb orb].
  destruct (files app !! path fi) as [md|] eqn:Hread;
    [|apply andb_false_r].
  rewrite (Hmd md eq_refl). cbn [differs]. rewrite String.eqb_refl.
  apply andb_false_r.
Qed.

(** C4. The nine workspace events listed in the claim are registered with
    [checkAndUpdate].  A run of [checkAndUpdate] always returns: an exception
    of the check or of [update] ends in [console.error].  It calls [update]
    once, without argument, when the active leaf's view is a Markdown view
    and the tracked leaf has a file whose path differs from the stored path
    or whose readable content differs from the stored Markdown; otherwise
    it does not call [update].  The view it leaves stores what it compared:
    on the same workspace a second check is not due for an update. *)
Theorem checkAndUpdate_updates_when_due (v : View) :
  List.map (fun reg => snd (fst reg))
    (List.filter (fun reg => bool_decide (snd reg = CheckAndUpdate)) registrations)
  = checked_events
  /\ exists (v' : View) (t : list effect),
       checkAndUpdate' v = (Returned tt, v', t)
       /\ List.filter is_update t
          = (if update_due MD_VIEW_TYPE app v then [UpdateCalled None] else [])
       /\ match check_then_update MD_VIEW_TYPE transform_and_render app v with
          | (Returned _, _, t1) => t = t1
          | (Threw err, _, t1) => t = (t1 ++ [ConsoleError err])%list
          end
       /\ update_due MD_VIEW_TYPE app v' = false.
Proof.
  split; [reflexivity|].
  assert (Hlog : forall v' t,
             checkAndUpdate' v = (Returned tt, v', t) ->
             match check_then_update MD_VIEW_TYPE transform_and_render app v with
             | (Returned _, _, t1) => t = t1
             | (Threw err, _, t1) => t = (t1 ++ [ConsoleError err])%list
             end).
  { intros v' t. unfold checkAndUpdate, try_catch, emit.
    destruct (check_then_update MD_VIEW_TYPE transform_and_render app v)
      as [[[a|err] v1] t1]; intros H; injection H; intros; subst; reflexivity. }
  cut (exists (v' : View) (t : list effect),
          checkAndUpdate' v = (Returned tt, v', t)
          /\ List.filter is_update t
             = (if update_due MD_VIEW_TYPE app v then [UpdateCalled None] else [])
          /\ update_due MD_VIEW_TYPE app v' = false).
  { intros (v' & t & Hrun & Hcalls & Hrest). exists v', t.
    split; [exact Hrun|split; [exact Hcalls|split; [exact (Hlog v' t Hrun)|exact Hrest]]]. }
  clear Hlog.
  assert (Hpin : isLeafPinned (retargeted app v) = isLeafPinned v)
    by (unfold retargeted; destruct (isLeafPinned v) eqn:E; cbn; congruence).
  assert (Hlink : isLeafPinned v = true -> linkedLeaf (retargeted app v) = linkedLeaf v)
    by (unfold retargeted; intros Hv; rewrite Hv; reflexivity).
  assert (Hmd : currentMd (retargeted app v) = currentMd v)
    by (unfold retargeted; destruct (isLeafPinned v); reflexivity).
  unfold checkAndUpdate, check_then_update, checkActiveLeaf.
  destruct (active_view_type app) as [ty|] eqn:Hactive;
    [destruct (String.eqb ty MD_VIEW_TYPE) eqn:Hty|].
  2, 3: unfold_m; cbn; exists v, [];
        unfold update_due, active_is_markdown; rewrite Hactive, ?Hty;
        repeat split; reflexivity.
  assert (Hdue : forall x, update_due MD_VIEW_TYPE app x
                           = match tracked_file app x with
                             | Some fi => path_changed x fi || markdown_changed app x fi
                             | None => false
                             end).
  { intros x. unfold update_due, active_is_markdown. now rewrite Hactive, Hty. }
  pose proof (readFilePath_run v) as Hpath.
  rewrite (Hdue v).
  destruct (tracked_file app v) as [fi|] eqn:Htracked.
  - unfold try_catch. unfold bind at 1. unfold bind at 1. rewrite Hpath.
    unfold bind at 1. rewrite readMarkDown_run.
    unfold markdown_changed. cbn [filePath set_file_info currentMd].
    rewrite Hmd.
    set (v2 := set_file_info fi (retargeted app v)).
    assert (Htracked2 : forall x,
               isLeafPinned x = isLeafPinned v2 ->
               linkedLeaf x = linkedLeaf v2 ->
               tracked_file app x = Some fi).
    { intros x Hp Hl. rewrite <- Htracked. apply tracked_file_same.
      - rewrite Hp. exact Hpin.
      - intros Hv. rewrite Hl. now apply Hlink. }
    destruct (files app !! path fi) as [md|] eqn:Hfile; unfold ret;
      destruct (path_changed v fi);
      try destruct (differs (currentMd v) md);
      cbn [List.app or_else orb].
    (* no update: the view after the two reads is the result *)
    all: try (do 2 eexists; split; [reflexivity|]; split; [reflexivity|];
              apply (stored_view_rests _ fi);
              [apply Htracked2; reflexivity
              |reflexivity
              |cbn [currentMd set_currentMd]; congruence]).
    (* update: it returns or throws, and the throw is caught *)
    all: match goal with
         | |- context [update ?f ?a None ?x] =>
             destruct (update_run x)
               as (r & v' & t & -> & Ht & Hfp & Hll & Hlp & Hcm)
         end.
    all: destruct r as [[]|err]; unfold emit; cbn [List.app];
         do 2 eexists; (split; [reflexivity|]).
    all: split;
         [cbn [List.filter is_update List.app];
          rewrite ?List.filter_app, ?Ht; reflexivity|].
    all: apply (stored_view_rests _ fi).
    all: first
           [ apply Htracked2; assumption
           | rewrite Hfp; reflexivity
           | intros md0 Hmd0; rewrite Hcm;
             cbn [filePath set_currentMd set_file_info v2 currentMd];
             rewrite Hmd0; reflexivity ].
  - destruct Hpath as [err Hpath].
    unfold try_catch. unfold bind at 1. unfold bind at 1. rewrite Hpath.
    unfold emit. cbn. do 2 eexists.
    split; [reflexivity|]. split; [reflexivity|].
    rewrite Hdue.
    rewrite (tracked_file_same v (retargeted app v) Hpin Hlink), Htracked.
    reflexivity.
Qed.

End UpdateFacts.

(** ** The debounced listener *)

Section DebouncedFacts.

Variable update_resolves : string -> bool.

Local Abbreviation step' := (step update_resolves).
Local Abbreviation settle' := (settle update_resolves).
Local Abbreviation run_trace' := (run_trace update_resolves).

Lemma clearTimeout_own id t c :
  clearTimeout id [{| timer_id := id; due := t; content := c |}] = [].
Proof. unfold clearTimeout. cbn. now rewrite Nat.eqb_refl. Qed.

(** The first event of a burst arms one timer. *)
Lemma quick_preview_when_quiet (t : nat) (c : string) (s : Debounce) :
  timers s = [] -> suspended s = 0 -> next_timer s <> 0 ->
  armed t c (step' s (QuickPreview t c))
  /\ updates (step' s (QuickPreview t c)) = updates s.
Proof.
  intros Hts Hsusp Hnext. cbn [step]. unfold fire_due. rewrite Hts. cbn [List.filter fold_left].
  unfold on_quick_preview, armed. rewrite Hts. cbn.
  split; [|reflexivity].
  exists (next_timer s). repeat split; try assumption; try lia.
  destruct (lastTimeout s) as [id|]; [destruct (negb (id =? 0)%nat)|]; reflexivity.
Qed.

(** A later event of the burst replaces the pending timer by its own. *)
Lemma quick_preview_when_armed (t t' : nat) (c c' : string) (s : Debounce) :
  armed t c s -> t' < t + DELAY ->
  armed t' c' (step' s (QuickPreview t' c'))
  /\ updates (step' s (QuickPreview t' c')) = updates s.
Proof.
  intros (id & Hid & Hlast & Hts & Hsusp & Hnext) Hlt.
  cbn [step]. unfold fire_due. rewrite Hts. cbn [List.filter due].
  assert (Hdue : (t + DELAY <=? t')%nat = false) by (apply Nat.leb_gt; exact Hlt).
  rewrite Hdue. cbn [fold_left].
  unfold on_quick_preview, armed. rewrite Hlast, Hts.
  assert (Hnz : negb (id =? 0)%nat = true)
    by (apply negb_true_iff, Nat.eqb_neq; exact Hid).
  rewrite Hnz, clearTimeout_own. cbn.
  split; [|reflexivity].
  exists (next_timer s). repeat split; try assumption; lia.
Qed.

(** The armed timer fires: one call to [update], with the timer's content. *)
Lemma settle_when_armed (t : nat) (c : string) (s : Debounce) :
  armed t c s ->
  updates (settle' s) = (updates s ++ [c])%list /\ timers (settle' s) = [].
Proof.
  intros (id & Hid & Hlast & Hts & Hsusp & Hnext).
  unfold settle. rewrite Hts. cbn [fold_left]. unfold fire. cbn [content timer_id].
  rewrite Hts, clearTimeout_own.
  destruct (String.eqb c ""); [split; reflexivity|].
  destruct (update_resolves c); split; reflexivity.
Qed.

Lemma last_cons_default {A} (l : list A) : forall a d : A,
  List.last (a :: l) d = List.last l a.
Proof.
  induction l as [|x l IH]; intros a d; [reflexivity|].
  change (List.last (a :: x :: l) d) with (List.last (x :: l) d).
  now rewrite !IH.
Qed.

Lemma burst_from_armed (evs : list (nat * string)) :
  forall (t : nat) (c : string) (s : Debounce),
    armed t c s -> spaced t evs ->
    updates (settle' (run_trace' (as_actions evs) s))
    = (updates s ++ [List.last (List.map snd evs) c])%list.
Proof.
  induction evs as [|[t' c'] rest IH]; intros t c s Harmed Hspaced.
  - cbn. apply (settle_when_armed t c s Harmed).
  - destruct Hspaced as (_ & Hlt & Hrest).
    destruct (quick_preview_when_armed t t' c c' s Harmed Hlt) as [Harmed' Hupd].
    cbn [as_actions List.map run_trace fold_left fst snd].
    specialize (IH t' c' _ Harmed' Hrest).
    unfold run_trace, as_actions in IH. rewrite IH, Hupd.
    cbn [List.map snd]. now rewrite last_cons_default.
Qed.

(** Where no file read interleaves, the debounce does what C3 says: from a
    state without pending timer and without suspended callback, a burst of
    quick-preview events, each less than 300 ms after the one before, ends
    in exactly one call to [update], with the content of the last event. *)
Lemma burst_updates_once (t : nat) (c : string) (evs : list (nat * string))
    (s : Debounce) :
  timers s = [] -> suspended s = 0 -> next_timer s <> 0 ->
  spaced t evs ->
  updates (settle' (run_trace' (as_actions ((t, c) :: evs)) s))
  = (updates s ++ [List.last (List.map snd evs) c])%list.
Proof.
  intros Hts Hsusp Hnext Hspaced.
  destruct (quick_preview_when_quiet t c s Hts Hsusp Hnext) as [Harmed Hupd].
  cbn [as_actions List.map run_trace fold_left fst snd].
  pose proof (burst_from_armed evs t c _ Harmed Hspaced) as H.
  unfold run_trace, as_actions in H. now rewrite H, Hupd.
Qed.

End DebouncedFacts.

(** C3 at [racing_trace].  The events ["a"] (310 ms) and ["ab"] (400 ms) are
    90 ms apart.  When ["ab"] arrives the timer of ["a"] is still pending and
    is not cancelled, because the callback of the first timer has reset
    [lastTimeout] after its file read; both timers fire, and [update] is
    called with ["a"] and again with ["ab"]. *)
Theorem quick_preview_race_updates_twice :
  spaced 310 [(400, "ab")]
  /\ lastTimeout (run_trace (fun _ => true)
                   [QuickPreview 0 ""; QuickPreview 310 "a"; ReadDone 320 true] idle)
     = None
  /\ List.map timer_id (timers (run_trace (fun _ => true) racing_trace idle))
     = [2; 3]
  /\ updates (settle (fun _ => true) (run_trace (fun _ => true) racing_trace idle))
     = [""; "a"; "ab"].
Proof. repeat split; cbn; unfold DELAY; lia. Qed.

(** ** Samples *)

(** On a workspace without other listeners: the [resize] reference is
    stored by [setListenersUp] and is detached by [onClose]. *)
Lemma onClose_detaches_workspace_listeners_sample :
  {| e := TheWorkspace; name := "resize"; fn := CheckAndUpdate; ref_id := 1 |}
  ∉ workspaceEvents (onClose (fst (setListenersUp no_listeners))
                       (snd (setListenersUp no_listeners))).
Proof.
  destruct (onClose_detaches_workspace_listeners no_listeners)
    as (_ & _ & _ & Hgone).
  apply Hgone. apply list_elem_of_In. vm_compute. right. left. reflexivity.
Defined.

Example applyColor_frontmatter_wraps :
  applyColor sample_settings (Some ["#111"; "#222"]) 5 = Some "#222".
Proof. reflexivity. Qed.

Example applyColor_settings_then_default :
  List.map (applyColor sample_settings None) [0; 1; 2; 3; 7]
  = [Some "red"; Some "green"; Some "blue"; Some "grey"; Some "grey"].
Proof. reflexivity. Qed.

Example check_updates_then_rests :
  two_checks (fun _ => Returned tt) = ([UpdateCalled None], []).
Proof. vm_compute. reflexivity. Qed.

Example check_logs_a_failed_update :
  two_checks (fun _ => Threw (Error "transform failed"))
  = ([UpdateCalled None; ConsoleError (Error "transform failed")], []).
Proof. vm_compute. reflexivity. Qed.

Example one_burst_one_update :
  updates (settle (fun _ => true)
             (run_trace (fun _ => true)
                [QuickPreview 0 "a"; QuickPreview 100 "ab"; QuickPreview 399 "abc"]
                idle))
  = ["abc"].
Proof. reflexivity. Qed.

End MindmapView.


(* ===================================================================== *)
(** * More on the htmlescape plugin *)
(* ===================================================================== *)

Module HtmlEscapeFacts.
Import HtmlEscape.

(** Number of occurrences of a character. *)
Fixpoint count (c : ascii) (s : string) : nat :=
  match s with
  | EmptyString => 0
  | String x s' => (if Ascii.eqb x c then 1 else 0) + count c s'
  end.

(** The types of the tokens of a tree, parents before children, in order. *)
Fixpoint types (t : Token) : list string :=
  match t with
  | mkToken ty _ ch =>
      ty :: match ch with
            | Some l => List.flat_map types l
            | None => []
            end
  end.

(** No token of the tree is rewritten by the plugin. *)
Fixpoint untouched (t : Token) : bool :=
  match t with
  | mkToken ty c ch =>
      negb (String.eqb ty "htmltag" && has_content c)
      && match ch with
         | Some l => List.forallb untouched l
         | None => true
         end
  end.

(** Induction on token trees: the children of a token have the property. *)
Fixpoint Token_nested_ind (P : Token -> Prop)
    (step : forall ty c ch,
        match ch with Some l => Forall P l | None => True end ->
        P (mkToken ty c ch))
    (t : Token) : P t :=
  match t with
  | mkToken ty c ch =>
      step ty c ch
        match ch return match ch with Some l => Forall P l | None => True end with
        | Some l =>
            (fix all (l : list Token) : Forall P l :=
               match l with
               | [] => @List.Forall_nil Token P
               | x :: r => @List.Forall_cons Token P x r (Token_nested_ind P step x) (all r)
               end) l
        | None => I
        end
  end.

Lemma count_append c (a b : string) : count c (a ++ b) = count c a + count c b.
Proof.
  induction a as [|x a IH]; [reflexivity|].
  rewrite Str.append_cons. cbn [count]. rewrite IH. lia.
Qed.

Lemma length_append (a b : string) :
  String.length (a ++ b) = String.length a + String.length b.
Proof.
  induction a as [|x a IH]; [reflexivity|].
  rewrite Str.append_cons. cbn [String.length]. now rewrite IH.
Qed.

(** One character of the pass, by cases. *)
Lemma first_brackets_cons (a b : bool) (x : ascii) (s : string) :
  first_brackets_escaped a b (String x s) =
  if Ascii.eqb x "<" && negb a then "&lt;" ++ first_brackets_escaped true b s
  else if Ascii.eqb x ">" && negb b then "&gt;" ++ first_brackets_escaped a true s
  else String x (first_brackets_escaped a b s).
Proof. reflexivity. Qed.

Lemma count_first_brackets_lt (s : string) : forall a b : bool,
  count "<" (first_brackets_escaped a b s)
  = if a then count "<" s else pred (count "<" s).
Proof.
  induction s as [|x s IH]; intros a b; [now destruct a|].
  rewrite first_brackets_cons. cbn [count].
  destruct (Ascii.eqb x "<") eqn:Hlt.
  - apply Ascii.eqb_eq in Hlt. subst x.
    destruct a; cbn [andb negb].
    + cbn [Ascii.eqb Bool.eqb andb negb count]. rewrite IH. reflexivity.
    + rewrite count_append, IH. reflexivity.
  - cbn [andb].
    destruct (Ascii.eqb x ">" && negb b).
    + rewrite count_append, IH. reflexivity.
    + cbn [count]. rewrite Hlt, IH. reflexivity.
Qed.

Lemma count_first_brackets_gt (s : string) : forall a b : bool,
  count ">" (first_brackets_escaped a b s)
  = if b then count ">" s else pred (count ">" s).
Proof.
  induction s as [|x s IH]; intros a b; [now destruct b|].
  rewrite first_brackets_cons. cbn [count].
  destruct (Ascii.eqb x "<") eqn:Hlt.
  - apply Ascii.eqb_eq in Hlt. subst x.
    destruct a; cbn [andb negb Ascii.eqb Bool.eqb].
    + cbn [count]. cbn [Ascii.eqb Bool.eqb andb]. rewrite IH. reflexivity.
    + rewrite count_append, IH. reflexivity.
  - cbn [andb].
    destruct (Ascii.eqb x ">") eqn:Hgt.
    + destruct b; cbn [andb negb].
      * cbn [count]. rewrite Hgt, IH. reflexivity.
      * rewrite count_append, IH. reflexivity.
    + cbn [andb count]. rewrite Hgt, IH. reflexivity.
Qed.

Lemma length_first_brackets (s : string) : forall a b : bool,
  String.length (first_brackets_escaped a b s)
  = String.length s
    + (if a then 0 else 3 * Nat.min 1 (count "<" s))
    + (if b then 0 else 3 * Nat.min 1 (count ">" s)).
Proof.
  induction s as [|x s IH]; intros a b; [destruct a, b; reflexivity|].
  rewrite first_brackets_cons. cbn [count String.length].
  destruct (Ascii.eqb x "<") eqn:Hlt.
  - apply Ascii.eqb_eq in Hlt. subst x.
    destruct a; cbn [andb negb Ascii.eqb Bool.eqb].
    + cbn [String.length]. rewrite IH. destruct b; lia.
    + rewrite length_append, IH. cbn [String.length]. destruct b; lia.
  - cbn [andb].
    destruct (Ascii.eqb x ">") eqn:Hgt.
    + destruct b; cbn [andb negb].
      * cbn [String.length]. rewrite IH. destruct a; lia.
      * rewrite length_append, IH. cbn [String.length]. destruct a; lia.
    + cbn [andb String.length]. rewrite IH. destruct a, b; lia.
Qed.

Lemma first_brackets_none (s : string) : forall a b : bool,
  count "<" s = 0 -> count ">" s = 0 -> first_brackets_escaped a b s = s.
Proof.
  induction s as [|x s IH]; intros a b Hlt Hgt; [reflexivity|].
  rewrite first_brackets_cons. cbn [count] in Hlt, Hgt.
  destruct (Ascii.eqb x "<"); [discriminate|].
  destruct (Ascii.eqb x ">"); [discriminate|].
  cbn [andb]. rewrite IH by assumption. reflexivity.
Qed.

(** The plugin escapes one ["<"] and one [">"] and no more: the escaped
    content has one ["<"] less than the content (none less when there was
    none), and likewise for [">"]; the content is unchanged exactly when it
    has no angle bracket at all. *)
Theorem escape_removes_one_bracket_each (s : string) :
  count "<" (escape s) = pred (count "<" s)
  /\ count ">" (escape s) = pred (count ">" s)
  /\ (escape s = s <-> count "<" s = 0 /\ count ">" s = 0).
Proof.
  rewrite escape_first_brackets.
  split; [apply count_first_brackets_lt|split; [apply count_first_brackets_gt|]].
  split.
  - intros Heq.
    pose proof (length_first_brackets s false false) as Hlen.
    rewrite Heq in Hlen. lia.
  - intros [Hlt Hgt]. now apply first_brackets_none.
Qed.

(** [escapeAll] never adds, drops, reorders or retypes a token: the types of
    the tree, read parents first, are the same before and after. *)
Theorem escapeAll_keeps_the_tree (t : Token) :
  types (escapeAll t) = types t.
Proof.
  induction t as [ty c ch IH] using Token_nested_ind.
  cbn [escapeAll types]. f_equal.
  destruct ch as [l|]; [|reflexivity].
  induction IH as [|x r Hx Hr IHr]; [reflexivity|].
  cbn [List.map List.flat_map]. now rewrite Hx, IHr.
Qed.

(** A tree without any ['htmltag'] token that has content comes back as it
    was. *)
Theorem escapeAll_leaves_plain_trees (t : Token) :
  untouched t = true -> escapeAll t = t.
Proof.
  induction t as [ty c ch IH] using Token_nested_ind.
  cbn [untouched escapeAll]. intros Hun.
  apply andb_true_iff in Hun. destruct Hun as [Hhere Hch].
  apply negb_true_iff in Hhere. rewrite Hhere.
  f_equal. destruct ch as [l|]; [|reflexivity]. f_equal.
  induction IH as [|x r Hx Hr IHr]; [reflexivity|].
  cbn [List.forallb] in Hch. apply andb_true_iff in Hch.
  destruct Hch as [Hx' Hr'].
  cbn [List.map]. now rewrite (Hx Hx'), (IHr Hr').
Qed.

(** A tree of plain tokens with a link text. *)
Definition plain_tree : Token :=
  mkToken "inline" (Some "a < b")
    (Some [ mkToken "text" (Some "a < b") None;
            mkToken "htmltag" (Some "") None ]).

Lemma escapeAll_leaves_plain_trees_sample : escapeAll plain_tree = plain_tree.
Proof. apply escapeAll_leaves_plain_trees. reflexivity. Defined.

End HtmlEscapeFacts.

(* ===================================================================== *)
(** * More on the code-block renderer: resizing, saving, layers *)
(* ===================================================================== *)

Module CodeBlockFacts.
Import JS CodeBlock.

(** ** SizeManager *)

(** Numbers are doubles in the source and integers here.  The two agree on
    the integers up to 2^53 in absolute value: a double holds each of them,
    prints it as its decimal digits, and adds two of them exactly when the
    sum is in the range too. *)
Definition safe (n : Z) : bool := (Z.abs n <=? 2 ^ 53)%Z.

(** A number of that range followed by the unit. *)
Definition css_px (n : Z) : string := pretty n ++ "px".

(** [v + "px"]: the value as a string, then the unit.  An object here is a
    plain object; the result is [None] for a number out of the range above. *)
Definition px (v : jsval) : option string :=
  match v with
  | JUndefined => Some "undefinedpx"
  | JNull => Some "nullpx"
  | JBool true => Some "truepx"
  | JBool false => Some "falsepx"
  | JNum n => if safe n then Some (css_px n) else None
  | JStr s => Some (s ++ "px")
  | JObj _ => Some "[object Object]px"
  end.

(** [v + n] for an integer [n], when the sum is a number of the range above:
    it is a string for a string or an object, and NaN for [undefined]. *)
Definition plus_number (v : jsval) (n : Z) : option Z :=
  let plus (h : Z) :=
    if safe h && safe n && safe (h + n) then Some (h + n)%Z else None in
  match v with
  | JNum h => plus h
  | JNull => plus 0%Z
  | JBool b => plus (Z.b2z b)
  | JUndefined | JStr _ | JObj _ => None
  end.

(** The manager, and the strings assigned to [svg.style.height] so far, the
    oldest first.  What the style keeps of an assigned string is the
    browser's business (it drops a negative length) and is not modelled. *)
Record Sized : Type := { manager : SettingsManager; assigned : list string }.

(** [svg.style.height = settings.height + "px"], the first statement of
    [SizeManager]. *)
Definition SizeManager (m : SettingsManager) : option Sized :=
  match px (height m) with
  | Some css => Some {| manager := m; assigned := [css] |}
  | None => None
  end.

(** The subscriber of [yOffset$]:
    [settings.height += offset; svg.style.height = settings.height + "px"]. *)
Definition on_offset (offset : Z) (s : Sized) : option Sized :=
  match plus_number (height (manager s)) offset with
  | Some h =>
      let m := set_height h (manager s) in
      match px (height m) with
      | Some css => Some {| manager := m; assigned := (assigned s ++ [css])%list |}
      | None => None
      end
  | None => None
  end.

(** The offsets of a drag, one after the other. *)
Fixpoint drag (offsets : list Z) (s : Sized) : option Sized :=
  match offsets with
  | [] => Some s
  | o :: rest =>
      match on_offset o s with
      | Some s' => drag rest s'
      | None => None
      end
  end.

Definition sum (l : list Z) : Z := fold_right Z.add 0%Z l.

(** The heights a drag from [h] goes through, one per offset. *)
Fixpoint running (h : Z) (offsets : list Z) : list Z :=
  match offsets with
  | [] => []
  | o :: rest => (h + o)%Z :: running (h + o) rest
  end.

(** The offsets and the heights of a drag from [h] stay in the range in
    which doubles add as integers do. *)
Fixpoint safe_drag (h : Z) (offsets : list Z) : bool :=
  match offsets with
  | [] => true
  | o :: rest => safe o && safe (h + o) && safe_drag (h + o) rest
  end.

(** The height the manager falls back to without a pending height. *)
Definition persisted_or_default (m : SettingsManager) : jsval :=
  coalesce (get (codeBlock (settings m)) "height") (JNum DEFAULT_HEIGHT).

(** ** Facts *)

Lemma height_set_height (h : Z) (m : SettingsManager) :
  height (set_height h m) = JNum h.
Proof.
  rewrite height_cases, set_height_pending, set_height_settings.
  destruct (strict_eq_num h (get (codeBlock (settings m)) "height")) eqn:E;
    [|reflexivity].
  apply strict_eq_num_spec in E. rewrite E. reflexivity.
Qed.

Lemma drag_from_number (offsets : list Z) : forall (s : Sized) (h : Z),
  height (manager s) = JNum h ->
  safe h = true ->
  safe_drag h offsets = true ->
  exists s' : Sized,
    drag offsets s = Some s'
    /\ height (manager s') = JNum (h + sum offsets)
    /\ settings (manager s') = settings (manager s)
    /\ assigned s'
       = (assigned s ++ List.map css_px (running h offsets))%list.
Proof.
  induction offsets as [|o rest IH]; intros s h Hh Hsafe Hdrag.
  - exists s. cbn. rewrite Z.add_0_r, app_nil_r. repeat split. exact Hh.
  - cbn [safe_drag] in Hdrag.
    apply andb_true_iff in Hdrag. destruct Hdrag as [Hstep Hrest].
    apply andb_true_iff in Hstep. destruct Hstep as [Ho Hsum].
    cbn [drag]. unfold on_offset. rewrite Hh. cbn [plus_number].
    rewrite Hsafe, Ho, Hsum. cbn [andb].
    rewrite height_set_height. cbn [px]. rewrite Hsum.
    destruct (IH {| manager := set_height (h + o) (manager s);
                    assigned := (assigned s ++ [css_px (h + o)])%list |}
                 (h + o)%Z) as (s' & Hgo & Hheight & Hsettings & Hcss).
    { apply height_set_height. }
    { exact Hsum. }
    { exact Hrest. }
    exists s'. cbn [sum fold_right running List.map]. fold (sum rest).
    replace (h + (o + sum rest))%Z with (h + o + sum rest)%Z by lia.
    split; [exact Hgo|]. split; [exact Hheight|]. split.
    + rewrite Hsettings. apply set_height_settings.
    + rewrite Hcss. cbn [assigned]. now rewrite <- app_assoc.
Qed.

(** Resizing adds up.  For integer offsets, as long as the offsets and the
    heights stay within 2^53 in absolute value, every step of a drag goes
    through: after the drag the height getter returns the height before it
    plus the sum of the offsets, the settings layers are untouched, and the
    strings assigned to [svg.style.height] are the starting height and then
    the height after each offset, each followed by [px]. *)
Theorem drag_adds_the_offsets (m : SettingsManager) (h : Z) (offsets : list Z) :
  height m = JNum h ->
  safe h = true ->
  safe_drag h offsets = true ->
  exists s0 s' : Sized,
    SizeManager m = Some s0
    /\ drag offsets s0 = Some s'
    /\ height (manager s') = JNum (h + sum offsets)
    /\ settings (manager s') = settings m
    /\ assigned s' = List.map css_px (h :: running h offsets).
Proof.
  intros Hh Hsafe Hdrag.
  destruct (drag_from_number offsets
              {| manager := m; assigned := [css_px h] |} h Hh Hsafe Hdrag)
    as (s' & Hgo & Hheight & Hsettings & Hcss).
  exists {| manager := m; assigned := [css_px h] |}, s'.
  split; [|repeat split; assumption].
  unfold SizeManager. rewrite Hh. cbn [px]. now rewrite Hsafe.
Qed.

(** A drag of 5, -2 and 10 pixels on the sample block of height 300. *)
Lemma drag_adds_the_offsets_sample :
  exists s0 s' : Sized,
    SizeManager (sample_manager None) = Some s0
    /\ drag [5; -2; 10]%Z s0 = Some s'
    /\ height (manager s') = JNum (300 + sum [5; -2; 10]%Z)
    /\ settings (manager s') = settings (sample_manager None)
    /\ assigned s' = List.map css_px
                       (300 :: running 300 [5; -2; 10])%Z.
Proof.
  apply (drag_adds_the_offsets (sample_manager None) 300 [5; -2; 10]%Z);
    reflexivity.
Defined.

Example drag_sample_value :
  option_map assigned
    (match SizeManager (sample_manager None) with
     | Some s0 => drag [5; -2; 10]%Z s0
     | None => None
     end)
  = Some ["300px"; "305px"; "303px"; "313px"].
Proof. vm_compute. reflexivity. Qed.

(** A drag upwards past the top: the height goes negative, and the negative
    length is what the code assigns. *)
Example drag_below_zero :
  option_map assigned
    (match SizeManager (sample_manager None) with
     | Some s0 => drag [-350]%Z s0
     | None => None
     end)
  = Some ["300px"; "-50px"].
Proof. vm_compute. reflexivity. Qed.

(** ** Saving *)

(** [saveHeight] writes the pending height into the document only: the
    code-block layer of the manager keeps the height it was built with.
    After a save that returned, the getter is back at the persisted height
    (150 without one), whatever was saved, and a further [saveHeight] does
    nothing. *)
Theorem saveHeight_forgets_the_saved_height
    (GrayMatter : string -> GrayMatterFile)
    (GrayMatter_stringify : string -> obj -> string)
    (m m' : SettingsManager) (info : SectionInfo) (editor editor' : Editor)
    (h : Z) :
  newHeight m = Some h ->
  saveHeight GrayMatter GrayMatter_stringify m info editor = Returned (m', editor') ->
  settings m' = settings m
  /\ height m' = persisted_or_default m
  /\ merged m' !! "height" = Some (persisted_or_default m)
  /\ (forall info2 editor2,
        saveHeight GrayMatter GrayMatter_stringify m' info2 editor2
        = Returned (m', editor2)).
Proof.
  intros Hpending Hsave. unfold saveHeight in Hsave. rewrite Hpending in Hsave.
  destruct (assign_markmap_height _ _) as [d|err] in Hsave; [|discriminate].
  injection Hsave as <- _.
  split; [reflexivity|]. split; [reflexivity|].
  split; [unfold merged; now rewrite lookup_insert_eq|].
  intros info2 editor2. reflexivity.
Qed.

Lemma saveHeight_forgets_the_saved_height_sample :
  height (sample_manager None) = JNum 300
  /\ merged (sample_manager None) !! "height" = Some (JNum 300).
Proof.
  destruct (saveHeight_forgets_the_saved_height sample_matter sample_stringify
              (sample_manager (Some 420%Z)) (sample_manager None)
              {| lineStart := 1; lineEnd := 7 |} note_mapping
              {| doc := "intro" ++ nl ++ fence_open
                        ++ sample_stringify ("# Title" ++ nl)
                             {[ "markmap" := JObj {[ "height" := JNum 420 ]} ]}
                        ++ fence_close ++ "outro" ++ nl |}
              420%Z eq_refl)
    as (_ & Hheight & Hmerged & _).
  - vm_compute. reflexivity.
  - split; [exact Hheight|exact Hmerged].
Defined.

(** ** Layers and classes *)

Lemma merged_lookup (m : SettingsManager) (k : string) :
  merged m !! k =
  if decide (k = "height") then Some (height m)
  else first_defined (codeBlock (settings m) !! k)
                     (file (settings m) !! k)
                     (global (settings m) !! k).
Proof.
  unfold merged. case_decide as Hk.
  - subst k. apply lookup_insert_eq.
  - rewrite lookup_insert_ne by congruence.
    rewrite !lookup_union. unfold first_defined.
    destruct (codeBlock (settings m) !! k), (file (settings m) !! k),
      (global (settings m) !! k); reflexivity.
Qed.

Section RenderFacts.

Context {INode Options : Type}.
Variable getOptions : obj -> Options.
Variable highlight : string.

(** A key that the file layer or the code-block layer sets, and the height,
    cannot be changed from the global settings: after any
    [updateGlobalSettings] the merged settings hold the same value for it as
    before. *)
Theorem global_update_is_hidden_by_upper_layers
    (s : obj) (r : Renderer INode Options) (k : string) :
  k = "height"
  \/ is_Some (file (settings (settingsManager r)) !! k)
  \/ is_Some (codeBlock (settings (settingsManager r)) !! k) ->
  merged (settingsManager (updateGlobalSettings getOptions highlight s r)) !! k
  = merged (settingsManager r) !! k.
Proof.
  intros Hk. rewrite !merged_lookup.
  cbn [updateGlobalSettings render settingsManager with_manager].
  case_decide; [rewrite !height_cases; reflexivity|].
  cbn [set_global settings codeBlock file global].
  destruct Hk as [Hk|[[v Hv]|[v Hv]]]; [contradiction| |]; rewrite Hv.
  - unfold first_defined.
    destruct (codeBlock (settings (settingsManager r)) !! k); reflexivity.
  - reflexivity.
Qed.

(** A key that the code-block layer sets, and the height, cannot be changed
    from the file settings either. *)
Theorem file_update_is_hidden_by_code_block
    (s : obj) (r : Renderer INode Options) (k : string) :
  k = "height"
  \/ is_Some (codeBlock (settings (settingsManager r)) !! k) ->
  merged (settingsManager (updateFileSettings getOptions highlight s r)) !! k
  = merged (settingsManager r) !! k.
Proof.
  intros Hk. rewrite !merged_lookup.
  cbn [updateFileSettings render settingsManager with_manager].
  case_decide; [rewrite !height_cases; reflexivity|].
  cbn [set_file settings codeBlock file global].
  destruct Hk as [Hk|[v Hv]]; [contradiction|]. now rewrite Hv.
Qed.

(** [render] decides about the highlight class and about no other class of
    the parent element, and rendering again changes nothing in the classes. *)
Theorem render_touches_only_the_highlight_class (r : Renderer INode Options) :
  (forall c : string,
      c <> highlight ->
      (c ∈ classList (render getOptions highlight r) <-> c ∈ classList r))
  /\ classList (render getOptions highlight (render getOptions highlight r))
     = classList (render getOptions highlight r).
Proof.
  unfold render. cbn [classList settingsManager].
  destruct (truthy (get (merged (settingsManager r)) "highlight")); split.
  - intros c Hc. rewrite elem_of_union, elem_of_singleton. tauto.
  - apply set_eq. intros c. rewrite !elem_of_union. tauto.
  - intros c Hc. rewrite elem_of_difference, elem_of_singleton. tauto.
  - apply set_eq. intros c. rewrite !elem_of_difference. tauto.
Qed.

End RenderFacts.

(** A renderer whose file layer sets [highlight]. *)
Definition sample_renderer : Renderer string obj :=
  CodeBlockRenderer (fun md : string => (md, ∅)) (fun o : obj => o)
    "markmap-highlight" "# Title" {[ "other-class" ]}
    {[ "highlight" := JBool true ]} {[ "highlight" := JBool false ]}.

Lemma global_update_is_hidden_by_upper_layers_sample :
  merged (settingsManager
            (updateGlobalSettings (fun o : obj => o) "markmap-highlight"
               {[ "highlight" := JBool true; "height" := JNum 1 ]}
               sample_renderer)) !! "highlight"
  = merged (settingsManager sample_renderer) !! "highlight".
Proof.
  apply global_update_is_hidden_by_upper_layers.
  right. left. exists (JBool false). vm_compute. reflexivity.
Defined.

Lemma file_update_is_hidden_by_code_block_sample :
  merged (settingsManager
            (updateFileSettings (fun o : obj => o) "markmap-highlight"
               {[ "height" := JNum 1 ]} sample_renderer)) !! "height"
  = merged (settingsManager sample_renderer) !! "height".
Proof.
  apply file_update_is_hidden_by_code_block. left. reflexivity.
Defined.

Lemma render_touches_only_the_highlight_class_sample :
  "other-class" ∈ classList (render (fun o : obj => o) "markmap-highlight"
                               sample_renderer)
  <-> "other-class" ∈ classList sample_renderer.
Proof.
  destruct (render_touches_only_the_highlight_class
              (fun o : obj => o) "markmap-highlight" sample_renderer)
    as [Hother _].
  apply Hother. discriminate.
Defined.

End CodeBlockFacts.

(* ===================================================================== *)
(** * hexToRgb *)
(* ===================================================================== *)

Module HexToRgb.
Import JS MindmapView.

(** Position of the first occurrence of a character. *)
Fixpoint index_of (c : ascii) (s : string) : option nat :=
  match s with
  | EmptyString => None
  | String x s' => if Ascii.eqb x c then Some 0 else option_map S (index_of c s')
  end.

(** The value of a hexadecimal digit, in either case. *)
Definition hex_value (c : ascii) : option nat :=
  match index_of c "0123456789abcdef" with
  | Some n => Some n
  | None => option_map (Nat.add 10) (index_of c "ABCDEF")
  end.

(** The class [[a-f\d]] under the flag [i]. *)
Definition is_hex (c : ascii) : bool :=
  match hex_value c with Some _ => true | None => false end.

(** [([a-f\d]{2})([a-f\d]{2})([a-f\d]{2})$] on the whole of [body]: the three
    captures. *)
Definition six_hex (body : string) : option (string * string * string) :=
  match body with
  | String a (String b (String c (String d (String e (String f EmptyString))))) =>
      if List.forallb is_hex [a; b; c; d; e; f]
      then Some (String a (String b EmptyString),
                 String c (String d EmptyString),
                 String e (String f EmptyString))
      else None
  | _ => None
  end.

(** [/^#?([a-f\d]{2})([a-f\d]{2})([a-f\d]{2})$/i.exec(hex)]: [None] is
    [null].  A leading ["#"] can only be matched by [#?], as it is no
    digit. *)
Definition exec (hex : string) : option (string * string * string) :=
  match hex with
  | String c rest => if Ascii.eqb c "#" then six_hex rest else six_hex hex
  | EmptyString => six_hex hex
  end.

(** [parseInt(s, 16)] on a string that starts with its digits (no blank, sign
    or [0x] before them): the value of the longest prefix of digits, [None]
    (NaN) when there is no digit. *)
Fixpoint parse_digits (acc : nat) (s : string) : nat :=
  match s with
  | EmptyString => acc
  | String c s' =>
      match hex_value c with
      | Some d => parse_digits (16 * acc + d) s'
      | None => acc
      end
  end.

Definition parseInt16 (s : string) : option nat :=
  match s with
  | EmptyString => None
  | String c _ => if is_hex c then Some (parse_digits 0 s) else None
  end.

(** A number in a template literal; NaN prints as ["NaN"]. *)
Definition show_number (n : option nat) : string :=
  match n with
  | Some k => pretty k
  | None => "NaN"
  end.

(** [hexToRgb(hex)].  The captures are read before [result] is tested, so a
    failed match throws. *)
Definition hexToRgb (hex : string) : completion (option string) :=
  match exec hex with
  | None => Threw (TypeError "Cannot read properties of null (reading '1')")
  | Some (r, g, b) =>
      let red := parseInt16 r in
      let green := parseInt16 g in
      let blue := parseInt16 b in
      Returned (Some ("rgb(" ++ show_number red ++ ", " ++ show_number green
                      ++ ", " ++ show_number blue ++ ")"))
  end.

(** A colour as a user writes it: six hexadecimal digits, with or without a
    leading ["#"]. *)
Definition all_hex (s : string) : bool :=
  List.forallb is_hex (list_ascii_of_string s).

Definition hex_colour (hex : string) : Prop :=
  exists body : string,
    (hex = body \/ hex = String "#" body)
    /\ String.length body = 6
    /\ all_hex body = true.

(** Two digits for a number below 256, in lower or in upper case. *)
Definition hex_char (upper : bool) (d : nat) : ascii :=
  match String.get d (if upper then "0123456789ABCDEF" else "0123456789abcdef") with
  | Some c => c
  | None => "0"%char
  end.

Definition hex2 (upper : bool) (n : nat) : string :=
  String (hex_char upper (n / 16)) (String (hex_char upper (n mod 16)) EmptyString).

Definition rgb (r g b : nat) : string :=
  "rgb(" ++ pretty r ++ ", " ++ pretty g ++ ", " ++ pretty b ++ ")".

Lemma hex_value_hex_char (upper : bool) (d : nat) :
  d < 16 -> hex_value (hex_char upper d) = Some d.
Proof.
  intros Hd.
  do 16 (destruct d as [|d]; [destruct upper; reflexivity|]). lia.
Qed.

Lemma is_hex_hex_char (upper : bool) (d : nat) :
  d < 16 -> is_hex (hex_char upper d) = true.
Proof. intros Hd. unfold is_hex. now rewrite hex_value_hex_char. Qed.

Lemma parseInt16_hex2 (upper : bool) (n : nat) :
  n < 256 -> parseInt16 (hex2 upper n) = Some n.
Proof.
  intros Hn.
  assert (Hhi : n / 16 < 16) by (apply Nat.Div0.div_lt_upper_bound; lia).
  assert (Hlo : n mod 16 < 16) by (apply Nat.mod_upper_bound; lia).
  unfold parseInt16, hex2. rewrite is_hex_hex_char by assumption.
  cbn [parse_digits]. rewrite !hex_value_hex_char by assumption.
  f_equal. pose proof (Nat.div_mod_eq n 16). lia.
Qed.

Lemma six_hex_spec (body : string) :
  (exists caps, six_hex body = Some caps)
  <-> String.length body = 6 /\ all_hex body = true.
Proof.
  unfold all_hex.
  destruct body as [|a [|b [|c [|d [|e [|f [|g rest]]]]]]];
    cbn [six_hex String.length list_ascii_of_string];
    try (split; [intros [caps H]; discriminate|intros [H _]; discriminate]).
  destruct (List.forallb is_hex [a; b; c; d; e; f]) eqn:E.
  - split; [intros _; split; reflexivity|eauto].
  - split; [intros [caps H]; discriminate|intros [_ H]; discriminate].
Qed.

Lemma hash_is_no_digit : is_hex "#" = false.
Proof. reflexivity. Qed.

Lemma exec_spec (hex : string) :
  (exists caps, exec hex = Some caps) <-> hex_colour hex.
Proof.
  unfold hex_colour. split.
  - intros Hex. unfold exec in Hex.
    destruct hex as [|c rest].
    + apply six_hex_spec in Hex. exists EmptyString. tauto.
    + destruct (Ascii.eqb c "#") eqn:Hc.
      * apply Ascii.eqb_eq in Hc. subst c.
        apply six_hex_spec in Hex. exists rest. tauto.
      * apply six_hex_spec in Hex. exists (String c rest). tauto.
  - intros (body & Hshape & Hlen & Hall).
    assert (Hbody : exists caps, six_hex body = Some caps)
      by (apply six_hex_spec; tauto).
    destruct Hshape as [-> | ->].
    + unfold exec. destruct body as [|c rest]; [exact Hbody|].
      destruct (Ascii.eqb c "#") eqn:Hc; [|exact Hbody].
      apply Ascii.eqb_eq in Hc. subst c.
      unfold all_hex in Hall. cbn [list_ascii_of_string List.forallb] in Hall.
      rewrite hash_is_no_digit in Hall. discriminate.
    + unfold exec. rewrite Ascii.eqb_refl. exact Hbody.
Qed.

(** [hexToRgb] never returns [null].  It returns a string exactly for a
    colour of six hexadecimal digits (either case, with or without ["#"]),
    and throws a TypeError on every other input. *)
Theorem hexToRgb_returns_or_throws (hex : string) :
  match hexToRgb hex with
  | Returned (Some _) => hex_colour hex
  | Returned None => False
  | Threw _ => ~ hex_colour hex
  end.
Proof.
  unfold hexToRgb. destruct (exec hex) as [[[r g] b]|] eqn:E.
  - apply exec_spec. eauto.
  - intros Hc. apply exec_spec in Hc. destruct Hc as [caps Hc]. congruence.
Qed.

(** Reading back a printed colour: for components below 256 written as two
    hexadecimal digits each, in lower or upper case, with or without the
    leading ["#"], [hexToRgb] returns [rgb(r, g, b)] with the same
    components in decimal. *)
Theorem hexToRgb_reads_components (upper hash : bool) (r g b : nat) :
  r < 256 -> g < 256 -> b < 256 ->
  hexToRgb ((if hash then "#" else "") ++ hex2 upper r ++ hex2 upper g ++ hex2 upper b)
  = Returned (Some (rgb r g b)).
Proof.
  intros Hr Hg Hb.
  assert (Hd : forall n, n < 256 -> n / 16 < 16 /\ n mod 16 < 16).
  { intros n Hn. split; [apply Nat.Div0.div_lt_upper_bound; lia
                         |apply Nat.mod_upper_bound; lia]. }
  destruct (Hd r Hr) as [Hr1 Hr2], (Hd g Hg) as [Hg1 Hg2], (Hd b Hb) as [Hb1 Hb2].
  assert (Hsix : six_hex (hex2 upper r ++ hex2 upper g ++ hex2 upper b)
                 = Some (hex2 upper r, hex2 upper g, hex2 upper b)).
  { cbv [hex2 append]. cbn [six_hex List.forallb].
    rewrite !is_hex_hex_char by assumption. reflexivity. }
  assert (Hexec : exec ((if hash then "#" else "")
                        ++ hex2 upper r ++ hex2 upper g ++ hex2 upper b)
                  = Some (hex2 upper r, hex2 upper g, hex2 upper b)).
  { cbv [hex2 append] in Hsix.
    destruct hash; cbv [hex2 append exec].
    - rewrite Ascii.eqb_refl. exact Hsix.
    - destruct (Ascii.eqb (hex_char upper (r / 16)) "#") eqn:Hc; [|exact Hsix].
      apply Ascii.eqb_eq in Hc.
      pose proof (is_hex_hex_char upper (r / 16) Hr1) as Hh.
      rewrite Hc, hash_is_no_digit in Hh. discriminate. }
  unfold hexToRgb. rewrite Hexec.
  rewrite !parseInt16_hex2 by assumption. reflexivity.
Qed.

Lemma hexToRgb_reads_components_sample :
  hexToRgb "#FF8000" = Returned (Some "rgb(255, 128, 0)").
Proof. exact (hexToRgb_reads_components true true 255 128 0 ltac:(lia) ltac:(lia) ltac:(lia)). Defined.

Example hexToRgb_throws_on_short_colour :
  hexToRgb "#fff" = Threw (TypeError "Cannot read properties of null (reading '1')").
Proof. reflexivity. Qed.

End HexToRgb.

(* ===================================================================== *)
(** * The override of stopPropagation *)
(* ===================================================================== *)

Module StopPropagation.

(** [c.toLowerCase()] for a character of the ASCII range. *)
Definition lower (c : ascii) : ascii :=
  let n := nat_of_ascii c in
  if (65 <=? n)%nat && (n <=? 90)%nat then ascii_of_nat (n + 32) else c.

Fixpoint toLowerCase (s : string) : string :=
  match s with
  | EmptyString => EmptyString
  | String c s' => String (lower c) (toLowerCase s')
  end.

(** The loop over the ancestors:
    [while (parent) { if (parent == this.svg) return; parent = parent.parentElement }].
    It returns early when an element of the chain is [this.svg]. *)
Definition reaches_svg (svg : option nat) (chain : list nat) : bool :=
  List.existsb (fun parent => bool_decide (svg = Some parent)) chain.

(** The function installed as [MouseEvent.prototype.stopPropagation].
    [tagName] is the tag of the event's target, [chain] the target and its
    ancestors from the target upwards (elements by identity), [svg] the value
    of [this.svg], where [this] is the event.  The result is the number of
    calls to the original [stopPropagation]. *)
Definition stopPropagation (tagName : string) (chain : list nat) (svg : option nat)
  : nat :=
  let first :=
    if negb (String.eqb (toLowerCase tagName) "div")
       || negb (String.eqb (toLowerCase tagName) "foreignObject")
    then 1 else 0 in
  if reaches_svg svg chain then first else first + 1.

(** The override stops every event: whatever the target's tag, its ancestors
    and the event's [svg] property, the original [stopPropagation] is called
    at least once, because no tag is both [div] and [foreignObject]; on an
    event without [svg] property it is called twice. *)
Theorem stopPropagation_always_stops
    (tagName : string) (chain : list nat) (svg : option nat) :
  1 <= stopPropagation tagName chain svg
  /\ stopPropagation tagName chain None = 2.
Proof.
  assert (Hfirst : negb (String.eqb (toLowerCase tagName) "div")
                   || negb (String.eqb (toLowerCase tagName) "foreignObject")
                   = true).
  { destruct (String.eqb (toLowerCase tagName) "div") eqn:Hdiv; [|reflexivity].
    apply String.eqb_eq in Hdiv. rewrite Hdiv. reflexivity. }
  unfold stopPropagation. rewrite Hfirst. split.
  - destruct (reaches_svg svg chain); lia.
  - assert (Hnone : reaches_svg None chain = false).
    { unfold reaches_svg. induction chain as [|p chain IH]; [reflexivity|].
      cbn [List.existsb]. rewrite IH.
      rewrite bool_decide_eq_false_2 by discriminate. reflexivity. }
    now rewrite Hnone.
Qed.

Example stopPropagation_inside_a_div :
  stopPropagation "DIV" [7; 3; 1] None = 2.
Proof. reflexivity. Qed.

End StopPropagation.

(* ===================================================================== *)
(** * The click listeners of applyWidths *)
(* ===================================================================== *)

Module ApplyWidths.

(** The circles of the svg that stay in the document, each with the number
    of click listeners [applyWidths] has put on it. *)
Abbreviation circles := (list nat).

(** The last statement of [applyWidths]: every circle gets a new closure as
    click listener. *)
Definition applyWidths (cs : circles) : circles := List.map S cs.

Fixpoint repeat_applyWidths (n : nat) (cs : circles) : circles :=
  match n with
  | O => cs
  | S n' => repeat_applyWidths n' (applyWidths cs)
  end.

(** A click on circle [i]: each of its listeners sets a timer of 50 ms, and
    each timer runs [applyWidths]. *)
Definition click (i : nat) (cs : circles) : circles :=
  match cs !! i with
  | Some k => repeat_applyWidths k cs
  | None => cs
  end.

Fixpoint clicks (n : nat) (i : nat) (cs : circles) : circles :=
  match n with
  | O => cs
  | S n' => clicks n' i (click i cs)
  end.

Lemma repeat_applyWidths_lookup (n : nat) : forall (cs : circles) (j k : nat),
  cs !! j = Some k -> repeat_applyWidths n cs !! j = Some (k + n).
Proof.
  induction n as [|n IH]; intros cs j k Hj; cbn [repeat_applyWidths].
  - now rewrite Nat.add_0_r.
  - rewrite (IH (applyWidths cs) j (S k)).
    + f_equal. lia.
    + unfold applyWidths.
      change (List.map S cs) with (S <$> cs).
      now rewrite list_lookup_fmap, Hj.
Qed.

Lemma click_lookup (i j ki kj : nat) (cs : circles) :
  cs !! i = Some ki -> cs !! j = Some kj -> click i cs !! j = Some (kj + ki).
Proof.
  intros Hi Hj. unfold click. rewrite Hi.
  now apply repeat_applyWidths_lookup.
Qed.



End ApplyWidths.

(* ===================================================================== *)
(** * renderMarkmap: fitting once *)
(* ===================================================================== *)

Module RenderMarkmap.

(** What the view does to the markmap and to the console. *)
Inductive mcall : Type :=
| SetDataReturned
| SetDataThrew
| FitReturned
| FitThrew
| Destroyed
| Created
| ConsoleError.

(** What the outside does during one [renderMarkmap]: whether
    [getComputedCss], [setData] and [fit] throw. *)
Record outcome : Type := {
  css_throws : bool;
  setData_throws : bool;
  fit_throws : bool
}.

Record RenderState : Type := { hasFit : bool; log : list mcall }.

(** [renderMarkmap]: the whole body is in a [try] whose [catch] logs. *)
Definition renderMarkmap (o : outcome) (s : RenderState) : RenderState :=
  if css_throws o
  then {| hasFit := hasFit s; log := log s ++ [ConsoleError] |}
  else if setData_throws o
  then {| hasFit := hasFit s; log := log s ++ [SetDataThrew; ConsoleError] |}
  else if hasFit s
  then {| hasFit := true; log := log s ++ [SetDataReturned] |}
  else if fit_throws o
  then {| hasFit := false;
          log := log s ++ [SetDataReturned; FitThrew; ConsoleError] |}
  else {| hasFit := true; log := log s ++ [SetDataReturned; FitReturned] |}.

(** The first two statements of [reloadMarkmapSVG]: the markmap is destroyed
    and a new one is created; [hasFit] is not touched. *)
Definition recreate (s : RenderState) : RenderState :=
  {| hasFit := hasFit s; log := log s ++ [Destroyed; Created] |}.

Inductive op : Type :=
| Render (o : outcome)
| Recreate.

Definition apply_op (s : RenderState) (x : op) : RenderState :=
  match x with
  | Render o => renderMarkmap o s
  | Recreate => recreate s
  end.

Definition run (ops : list op) (s : RenderState) : RenderState :=
  fold_left apply_op ops s.

(** The state the constructor leaves: [hasFit = false]. *)
Definition constructed : RenderState := {| hasFit := false; log := [] |}.

Definition is_fit (c : mcall) : bool :=
  match c with FitReturned | FitThrew => true | _ => false end.

Definition fit_returned (c : mcall) : bool :=
  match c with FitReturned => true | _ => false end.

Lemma apply_op_fits (s : RenderState) (x : op) :
  length (List.filter fit_returned (log (apply_op s x)))
  + (if hasFit s then 1 else 0)
  = length (List.filter fit_returned (log s))
    + (if hasFit (apply_op s x) then 1 else 0)
  /\ (hasFit s = true ->
      hasFit (apply_op s x) = true
      /\ List.filter is_fit (log (apply_op s x)) = List.filter is_fit (log s)).
Proof.
  destruct x as [[c d f]|]; cbn [apply_op]; unfold renderMarkmap, recreate;
    cbn [css_throws setData_throws fit_throws].
  - destruct c; [|destruct d; [|destruct (hasFit s) eqn:Hs; [|destruct f]]].
    all: cbn [hasFit log]; rewrite ?List.filter_app, ?length_app;
         cbn [List.filter fit_returned is_fit length]; rewrite ?app_nil_r.
    all: split; [lia|].
    all: intros H; try congruence.
    all: split; [assumption || reflexivity|reflexivity].
  - cbn [hasFit log]. rewrite !List.filter_app, length_app. cbn.
    rewrite app_nil_r. split; [lia|intros H; split; [exact H|reflexivity]].
Qed.

(** [fit] succeeds at most once in the life of a view.  From the
    constructor's state and through any renders and re-creations of the
    markmap, [fit] has returned exactly once if [hasFit] is set and never
    otherwise; and once [hasFit] is set no later render calls [fit] again,
    also not on a markmap created anew by [reloadMarkmapSVG]. *)
Theorem fit_returns_at_most_once (ops more : list op) :
  let s := run ops constructed in
  length (List.filter fit_returned (log s)) = (if hasFit s then 1 else 0)
  /\ (hasFit s = true ->
      List.filter is_fit (log (run more s)) = List.filter is_fit (log s)).
Proof.
  intros s. split.
  - subst s.
    assert (Hgen : forall s0,
               length (List.filter fit_returned (log (run ops s0)))
               + (if hasFit s0 then 1 else 0)
               = length (List.filter fit_returned (log s0))
                 + (if hasFit (run ops s0) then 1 else 0)).
    { unfold run. induction ops as [|x ops IH]; intros s0; [reflexivity|].
      cbn [fold_left]. specialize (IH (apply_op s0 x)).
      destruct (apply_op_fits s0 x) as [Hstep _]. lia. }
    specialize (Hgen constructed). cbn [constructed hasFit log List.filter length] in Hgen.
    lia.
  - clearbody s. revert s. unfold run.
    induction more as [|x more IH]; intros s Hs; [reflexivity|].
    cbn [fold_left]. destruct (apply_op_fits s x) as [_ Hkeep].
    destruct (Hkeep Hs) as [Hs' Hlog]. rewrite (IH _ Hs'). exact Hlog.
Qed.

Lemma fit_returns_at_most_once_sample :
  List.filter is_fit
    (log (run [Recreate;
               Render {| css_throws := false; setData_throws := false;
                         fit_throws := false |}]
            (run [Render {| css_throws := false; setData_throws := true;
                            fit_throws := false |};
                  Render {| css_throws := false; setData_throws := false;
                            fit_throws := false |}] constructed)))
  = [FitReturned].
Proof.
  destruct (fit_returns_at_most_once
              [Render {| css_throws := false; setData_throws := true;
                         fit_throws := false |};
               Render {| css_throws := false; setData_throws := false;
                         fit_throws := false |}]
              [Recreate;
               Render {| css_throws := false; setData_throws := false;
                         fit_throws := false |}]) as [_ Hlater].
  rewrite Hlater; reflexivity.
Defined.

End RenderMarkmap.

(* ===================================================================== *)
(** * update with a content, and the leaf an unpinned view tracks *)
(* ===================================================================== *)

Module UpdatePath.
Import JS MindmapView.

(** [getDisplayText]: [this.displayText ?? "Mind Map"]. *)
Definition getDisplayText (v : View) : string :=
  match displayText v with
  | Some t => t
  | None => "Mind Map"
  end.

(** A workspace like [sample_app] whose vault is empty. *)
Definition sample_app_without_files : App :=
  {| leaves := leaves sample_app; activeLeaf := activeLeaf sample_app; files := ∅ |}.

Section Facts.

Variable MD_VIEW_TYPE : string.
Variable transform_and_render : string -> completion unit.

(** [update(content)] with a non-empty content does not read the vault: it
    gives the same result on every workspace.  It is logged once, stores the
    content as the current Markdown and keeps the tracked path.  When the
    transformer, [deriveOptions] and the asset loaders return, it returns
    and the display text is ["Mind Map of "] followed by the file name,
    whatever happens inside [renderMarkmap], which catches its own errors;
    when one of them throws, [update] throws the same error and the display
    text is as before. *)
Theorem update_with_content_skips_the_vault
    (app : App) (md : string) (v : View) :
  md <> "" ->
  (forall app2 : App,
      update transform_and_render app2 (Some md) v
      = update transform_and_render app (Some md) v)
  /\ exists (r : completion unit) (v' : View),
       update transform_and_render app (Some md) v
       = (r, v', [UpdateCalled (Some md)])
       /\ currentMd v' = Some md
       /\ filePath v' = filePath v
       /\ match transform_and_render md with
          | Returned _ =>
              r = Returned tt
              /\ getDisplayText v' = "Mind Map of " ++ fileName v
          | Threw err => r = Threw err /\ displayText v' = displayText v
          end.
Proof.
  intros Hmd. apply String.eqb_neq in Hmd.
  assert (Hrun : forall a : App,
             update transform_and_render a (Some md) v
             = match transform_and_render md with
               | Returned _ =>
                   (Returned tt,
                    set_displayText ("Mind Map of " ++ fileName v) (set_currentMd md v),
                    [UpdateCalled (Some md)])
               | Threw err => (Threw err, set_currentMd md v, [UpdateCalled (Some md)])
               end).
  { intros a. unfold update. rewrite Hmd. cbn [negb].
    unfold bind, emit, assign, this, ret, throw. cbn [currentMd set_currentMd].
    rewrite Hmd. destruct (transform_and_render md); reflexivity. }
  split; [intros app2; now rewrite !Hrun|].
  rewrite Hrun. destruct (transform_and_render md) as [[]|err];
    do 2 eexists; repeat split; reflexivity.
Qed.

Lemma readFilePath_unpinned (app : App) (l : option nat) (v : View) :
  isLeafPinned v = false ->
  readFilePath app (set_linkedLeaf l v) = readFilePath app v.
Proof.
  intros Hpin. unfold readFilePath, getLeafTarget, bind, this, assign, ret.
  cbn [isLeafPinned set_linkedLeaf]. rewrite Hpin. reflexivity.
Qed.

(** The leaf stored in [linkedLeaf] has no influence on an unpinned view:
    when the active leaf shows Markdown, [checkAndUpdate] gives the same
    result, the same view and the same effects whatever [linkedLeaf] held
    before (as set by [updateLinkedLeaf], say), because [getLeafTarget]
    first overwrites it with the active leaf. *)
Theorem unpinned_view_ignores_the_linked_leaf
    (app : App) (l : option nat) (v : View) :
  isLeafPinned v = false ->
  active_is_markdown MD_VIEW_TYPE app = true ->
  checkAndUpdate MD_VIEW_TYPE transform_and_render app (set_linkedLeaf l v)
  = checkAndUpdate MD_VIEW_TYPE transform_and_render app v.
Proof.
  intros Hpin Hactive.
  assert (Hcheck : checkActiveLeaf MD_VIEW_TYPE app (set_linkedLeaf l v)
                   = checkActiveLeaf MD_VIEW_TYPE app v).
  { unfold checkActiveLeaf. unfold active_is_markdown in Hactive.
    destruct (active_view_type app) as [ty|]; [|discriminate].
    rewrite Hactive. unfold bind at 1.
    rewrite (readFilePath_unpinned app l v Hpin). reflexivity. }
  unfold checkAndUpdate, try_catch, check_then_update. unfold bind at 1.
  rewrite Hcheck. reflexivity.
Qed.

End Facts.

Lemma update_with_content_skips_the_vault_sample :
  update (fun _ => Returned tt) sample_app_without_files (Some "# B") sample_view
  = update (fun _ => Returned tt) sample_app (Some "# B") sample_view.
Proof.
  destruct (update_with_content_skips_the_vault (fun _ => Returned tt)
              sample_app "# B" sample_view) as [Hsame _].
  - discriminate.
  - apply Hsame.
Defined.

Lemma unpinned_view_ignores_the_linked_leaf_sample :
  checkAndUpdate "markdown" (fun _ => Returned tt) sample_app
    (set_linkedLeaf (Some 9) sample_view)
  = checkAndUpdate "markdown" (fun _ => Returned tt) sample_app sample_view.
Proof.
  apply unpinned_view_ignores_the_linked_leaf; reflexivity.
Defined.

End UpdatePath.

(* ===================================================================== *)
(** * Pinning *)
(* ===================================================================== *)

Module Pinning.
Import JS.

(** The pin flag, the element held in [pinAction], the action elements in
    the view's header, and the counter that numbers new elements. *)
Record Pinned : Type := {
  isLeafPinned : bool;
  pinAction : option nat;
  actions : list nat;
  next_element : nat
}.

(** [pinCurrentLeaf]: [addAction] puts a new element into the header and
    returns it. *)
Definition pinCurrentLeaf (p : Pinned) : Pinned :=
  {| isLeafPinned := true;
     pinAction := Some (next_element p);
     actions := next_element p :: actions p;
     next_element := S (next_element p) |}.

Definition remove_element (el : nat) (l : list nat) : list nat :=
  List.filter (fun x => negb (x =? el)%nat) l.

(** [unPin]: the flag is cleared first; then
    [this.pinAction.parentNode.removeChild(this.pinAction)] throws when there
    is no [pinAction], or when it is no longer in the header (its
    [parentNode] is null). *)
Definition unPin (p : Pinned) : completion unit * Pinned :=
  let cleared :=
    {| isLeafPinned := false; pinAction := pinAction p;
       actions := actions p; next_element := next_element p |} in
  match pinAction p with
  | None =>
      (Threw (TypeError "Cannot read properties of undefined (reading 'parentNode')"),
       cleared)
  | Some el =>
      if List.existsb (fun x => (x =? el)%nat) (actions p)
      then (Returned tt,
            {| isLeafPinned := false; pinAction := pinAction p;
               actions := remove_element el (actions p);
               next_element := next_element p |})
      else (Threw (TypeError "Cannot read properties of null (reading 'removeChild')"),
            cleared)
  end.

Fixpoint pin_times (n : nat) (p : Pinned) : Pinned :=
  match n with
  | O => p
  | S n' => pinCurrentLeaf (pin_times n' p)
  end.

(** A view that was never pinned. *)
Definition never_pinned : Pinned :=
  {| isLeafPinned := false; pinAction := None; actions := []; next_element := 0 |}.

(** New elements are new: the counter is above the elements of the header. *)
Definition fresh (p : Pinned) : Prop :=
  Forall (fun x => x < next_element p) (actions p).

Lemma pin_times_fresh (n : nat) (p : Pinned) :
  fresh p ->
  fresh (pin_times n p)
  /\ length (actions (pin_times n p)) = n + length (actions p).
Proof.
  intros Hp. induction n as [|n [IHf IHl]]; [split; [exact Hp|reflexivity]|].
  cbn [pin_times]. unfold fresh, pinCurrentLeaf in *. cbn [actions next_element].
  split.
  - constructor; [lia|]. eapply Forall_impl; [exact IHf|]. cbn. intros; lia.
  - cbn [length]. now rewrite IHl.
Qed.

Lemma remove_fresh (el : nat) (l : list nat) :
  Forall (fun x => x < el) l -> remove_element el l = l.
Proof.
  induction 1 as [|x l Hx Hl IH]; [reflexivity|].
  cbn [remove_element List.filter].
  assert (Hne : (x =? el)%nat = false) by (apply Nat.eqb_neq; lia).
  rewrite Hne. cbn [negb]. f_equal. exact IH.
Qed.

Lemma absent_fresh (el : nat) (l : list nat) :
  Forall (fun x => x < el) l -> List.existsb (fun x => (x =? el)%nat) l = false.
Proof.
  induction 1 as [|x l Hx Hl IH]; [reflexivity|].
  cbn [List.existsb].
  assert (Hne : (x =? el)%nat = false) by (apply Nat.eqb_neq; lia).
  now rewrite Hne, IH.
Qed.

(** [unPin] takes away the last pin action only.  After [n + 1] uses of
    "Pin" and one [unPin] the view is unpinned but [n] pin actions are left
    in the header; a second [unPin] throws and removes nothing. *)
Theorem unPin_removes_only_the_last_action (n : nat) (p : Pinned) :
  fresh p ->
  exists p1 : Pinned,
    unPin (pin_times (S n) p) = (Returned tt, p1)
    /\ isLeafPinned p1 = false
    /\ length (actions p1) = n + length (actions p)
    /\ exists err, unPin p1 = (Threw err, p1).
Proof.
  intros Hp. destruct (pin_times_fresh n p Hp) as [Hf Hl].
  cbn [pin_times]. set (q := pin_times n p) in *.
  unfold unPin, pinCurrentLeaf. cbn [pinAction actions next_element List.existsb].
  rewrite Nat.eqb_refl. cbn [orb].
  eexists. split; [reflexivity|]. cbn [isLeafPinned actions pinAction next_element].
  split; [reflexivity|].
  assert (Hrem : remove_element (next_element q) (next_element q :: actions q)
                 = actions q).
  { cbn [remove_element List.filter]. rewrite Nat.eqb_refl. cbn [negb].
    now apply remove_fresh. }
  rewrite Hrem. split; [exact Hl|].
  rewrite (absent_fresh (next_element q) (actions q) Hf). eexists. reflexivity.
Qed.

Lemma unPin_removes_only_the_last_action_sample :
  exists p1 : Pinned,
    unPin (pin_times 2 never_pinned) = (Returned tt, p1)
    /\ isLeafPinned p1 = false
    /\ length (actions p1) = 1 + length (actions never_pinned)
    /\ exists err, unPin p1 = (Threw err, p1).
Proof. apply (unPin_removes_only_the_last_action 1 never_pinned). constructor. Defined.

End Pinning.

(* ===================================================================== *)
(** * The debounced listener: what holds in every run *)
(* ===================================================================== *)

Module DebounceFacts.
Import MindmapView.

Definition time_of (a : action) : nat :=
  match a with
  | QuickPreview t _ => t
  | ReadDone t _ => t
  end.

Definition is_quick_preview (a : action) : bool :=
  match a with
  | QuickPreview _ _ => true
  | ReadDone _ _ => false
  end.

(** Time does not run backwards along a trace that starts at [now]. *)
Fixpoint in_time_order (now : nat) (tr : list action) : Prop :=
  match tr with
  | [] => True
  | a :: rest => now <= time_of a /\ in_time_order (time_of a) rest
  end.

(** The ids of the timers fired so far do not occur in [tm]. *)
Definition not_fired (l : list Timer) (tm : Timer) : bool :=
  negb (List.existsb (fun x => (timer_id tm =? timer_id x)%nat) l).

(** Every pending timer was set at or before [now] and has an id below the
    next one. *)
Definition pending_ok (now : nat) (s : Debounce) : Prop :=
  Forall (fun tm => due tm <= now + DELAY /\ timer_id tm < next_timer s) (timers s).

(** The timer of the last event is pending, after all others, and is due
    last. *)
Definition last_pending (c : string) (s : Debounce) : Prop :=
  exists (older : list Timer) (tm : Timer),
    timers s = (older ++ [tm])%list
    /\ content tm = c
    /\ Forall (fun x => due x <= due tm /\ timer_id x <> timer_id tm) older.

(** No timer is pending and the last call to [update] had the content of the
    last event. *)
Definition last_updated (c : string) (s : Debounce) : Prop :=
  timers s = [] /\ exists earlier, updates s = (earlier ++ [c])%list.

Section Facts.

Variable update_resolves : string -> bool.

Local Abbreviation fire' := (fire update_resolves).
Local Abbreviation fire_all l s := (fold_left (fun acc tm => fire' tm acc) l s).

Lemma fire_fields (tm : Timer) (s : Debounce) :
  timers (fire' tm s) = clearTimeout (timer_id tm) (timers s)
  /\ updates (fire' tm s) = (updates s ++ [content tm])%list
  /\ next_timer (fire' tm s) = next_timer s.
Proof.
  unfold fire. destruct (String.eqb (content tm) "");
    [|destruct (update_resolves (content tm))]; repeat split.
Qed.

Lemma fire_all_fields (l : list Timer) : forall s : Debounce,
  timers (fire_all l s) = List.filter (not_fired l) (timers s)
  /\ updates (fire_all l s) = (updates s ++ List.map content l)%list
  /\ next_timer (fire_all l s) = next_timer s.
Proof.
  induction l as [|x l IH]; intros s; cbn [fold_left].
  - split; [|split; [now rewrite app_nil_r|reflexivity]].
    unfold not_fired. cbn [List.existsb negb].
    induction (timers s) as [|y ys IHy]; [reflexivity|].
    cbn [List.filter]. now rewrite <- IHy.
  - destruct (IH (fire' x s)) as (Ht & Hu & Hn).
    destruct (fire_fields x s) as (Ht1 & Hu1 & Hn1).
    rewrite Ht, Hu, Hn, Ht1, Hu1, Hn1.
    split; [|split; [now rewrite <- app_assoc|reflexivity]].
    unfold clearTimeout, not_fired. cbn [List.existsb].
    generalize (timers s). clear. intros ts.
    induction ts as [|y ys IHy]; [reflexivity|].
    cbn [List.filter].
    destruct (timer_id y =? timer_id x)%nat; cbn [negb orb List.filter].
    + exact IHy.
    + destruct (List.existsb (fun x0 => (timer_id y =? timer_id x0)%nat) l);
        cbn [negb]; now rewrite IHy.
Qed.

Lemma filter_all {A} (f : A -> bool) (l : list A) :
  Forall (fun x => f x = true) l -> List.filter f l = l.
Proof.
  induction 1 as [|x l Hx Hl IH]; [reflexivity|].
  cbn [List.filter]. now rewrite Hx, IH.
Qed.

Lemma filter_none {A} (f : A -> bool) (l : list A) :
  Forall (fun x => f x = false) l -> List.filter f l = [].
Proof.
  induction 1 as [|x l Hx Hl IH]; [reflexivity|].
  cbn [List.filter]. now rewrite Hx, IH.
Qed.

Lemma fired_own (l : list Timer) :
  Forall (fun tm => not_fired l tm = false) l.
Proof.
  apply Forall_forall. intros tm Hin. unfold not_fired.
  apply negb_false_iff, List.existsb_exists. exists tm.
  split; [now apply list_elem_of_In|apply Nat.eqb_refl].
Qed.

Lemma not_fired_sublist (f : Timer -> bool) (older : list Timer) (tm : Timer) :
  Forall (fun x => timer_id x <> timer_id tm) older ->
  not_fired (List.filter f older) tm = true.
Proof.
  intros Hne. unfold not_fired. apply negb_true_iff.
  induction Hne as [|x l Hx Hl IH]; [reflexivity|].
  cbn [List.filter]. destruct (f x); [|exact IH].
  cbn [List.existsb]. rewrite IH.
  assert (H : (timer_id tm =? timer_id x)%nat = false)
    by (apply Nat.eqb_neq; congruence).
  now rewrite H.
Qed.

(** Timers coming due keep the last event in front: its timer stays pending
    last, or everything has fired and it was the last to fire. *)
Lemma fire_due_keeps_last (now : nat) (c : string) (s : Debounce) :
  last_pending c s \/ last_updated c s ->
  last_pending c (fire_due update_resolves now s)
  \/ last_updated c (fire_due update_resolves now s).
Proof.
  unfold fire_due.
  set (F := fun tm : Timer => (due tm <=? now)%nat).
  destruct (fire_all_fields (List.filter F (timers s)) s) as (Ht & Hu & _).
  intros [(older & tm & Htimers & Hc & Holder) | [Hnone Hupd]].
  - rewrite Htimers in *.
    rewrite (List.filter_app F older [tm]) in *.
    cbn [List.filter] in *.
    destruct (F tm) eqn:Hdue; unfold F in Hdue.
    + (* the last timer is due: all are, and all fire in order *)
      right. apply Nat.leb_le in Hdue.
      assert (Hall : List.filter F older = older).
      { apply filter_all. eapply Forall_impl; [exact Holder|].
        cbn. intros x [Hx _]. apply Nat.leb_le. lia. }
      rewrite Hall in *. split.
      * rewrite Ht. apply filter_none. apply fired_own.
      * rewrite Hu, List.map_app. cbn [List.map]. rewrite Hc.
        exists (updates s ++ List.map content older)%list.
        now rewrite <- app_assoc.
    + (* the last timer stays; some older ones may fire *)
      left. rewrite app_nil_r in *.
      exists (List.filter (not_fired (List.filter F older)) older), tm.
      split; [|split; [exact Hc|]].
      * rewrite Ht.
        rewrite (List.filter_app (not_fired (List.filter F older)) older [tm]).
        cbn [List.filter].
        rewrite not_fired_sublist; [reflexivity|].
        eapply Forall_impl; [exact Holder|]. cbn. tauto.
      * apply Forall_forall. intros x Hx.
        apply list_elem_of_In, List.filter_In in Hx. destruct Hx as [Hx _].
        rewrite Forall_forall in Holder. apply Holder. now apply list_elem_of_In.
  - right. rewrite Hnone in *. cbn [List.filter List.map] in *.
    split; [rewrite Ht; reflexivity|]. rewrite Hu, app_nil_r. exact Hupd.
Qed.

Lemma fire_due_pending_ok (now now' : nat) (s : Debounce) :
  now <= now' -> pending_ok now s ->
  pending_ok now' (fire_due update_resolves now' s).
Proof.
  intros Hle Hok. unfold pending_ok, fire_due in *.
  destruct (fire_all_fields
              (List.filter (fun tm => (due tm <=? now')%nat) (timers s)) s)
    as (Ht & _ & Hn).
  rewrite Ht, Hn. apply Forall_forall. intros x Hx.
  apply list_elem_of_In, List.filter_In in Hx. destruct Hx as [Hx _].
  rewrite Forall_forall in Hok. specialize (Hok x (proj2 (list_elem_of_In _ _) Hx)).
  lia.
Qed.

Lemma clearTimeout_sub (id : nat) (ts : list Timer) (P : Timer -> Prop) :
  Forall P ts -> Forall P (clearTimeout id ts).
Proof.
  intros H. apply Forall_forall. intros x Hx.
  apply list_elem_of_In, List.filter_In in Hx. destruct Hx as [Hx _].
  rewrite Forall_forall in H. apply H. now apply list_elem_of_In.
Qed.

(** What is pending right after the listener ran, whatever it cancelled. *)
Lemma on_quick_preview_timers (t : nat) (c : string) (s : Debounce) (P : Timer -> Prop) :
  Forall P (timers s) ->
  exists kept : list Timer,
    timers (on_quick_preview t c s)
    = (kept ++ [{| timer_id := next_timer s; due := t + DELAY; content := c |}])%list
    /\ Forall P kept
    /\ next_timer (on_quick_preview t c s) = S (next_timer s)
    /\ updates (on_quick_preview t c s) = updates s.
Proof.
  intros HP. unfold on_quick_preview. cbn [timers next_timer updates].
  eexists. split; [reflexivity|]. split; [|split; reflexivity].
  destruct (lastTimeout s) as [id|]; [destruct (negb (id =? 0)%nat)|];
    try exact HP.
  now apply clearTimeout_sub.
Qed.

Lemma step_pending_ok (now : nat) (a : action) (s : Debounce) :
  now <= time_of a -> pending_ok now s ->
  pending_ok (time_of a) (step update_resolves s a).
Proof.
  intros Hle Hok.
  pose proof (fire_due_pending_ok now (time_of a) s Hle Hok) as Hdue.
  destruct a as [t c|t resolved]; cbn [step time_of] in *.
  - unfold pending_ok in *.
    destruct (on_quick_preview_timers t c (fire_due update_resolves t s) _ Hdue)
      as (kept & Ht & Hkept & Hn & _).
    rewrite Ht, Hn. apply Forall_app. split.
    + eapply Forall_impl; [exact Hkept|]. cbn. intros x [? ?]. lia.
    + constructor; [cbn; lia|constructor].
  - unfold pending_ok, read_done in *.
    destruct (suspended (fire_due update_resolves t s)); [exact Hdue|].
    destruct resolved; exact Hdue.
Qed.

Lemma run_pending_ok (tr : list action) : forall (now : nat) (s : Debounce),
  in_time_order now tr -> pending_ok now s ->
  exists now', now <= now'
               /\ pending_ok now' (run_trace update_resolves tr s)
               /\ (forall a rest, in_time_order now (tr ++ a :: rest) ->
                                  now' <= time_of a).
Proof.
  unfold run_trace.
  induction tr as [|a tr IH]; intros now s Horder Hok.
  - exists now. split; [lia|]. split; [exact Hok|].
    intros a rest [Ha _]. exact Ha.
  - destruct Horder as [Ha Hrest]. cbn [fold_left].
    destruct (IH (time_of a) (step update_resolves s a) Hrest
                 (step_pending_ok now a s Ha Hok)) as (now' & Hle & Hok' & Hnext).
    exists now'. split; [lia|]. split; [exact Hok'|].
    intros b rest [_ Hb]. now apply (Hnext b rest).
Qed.

Lemma step_keeps_last (c : string) (a : action) (s : Debounce) :
  is_quick_preview a = false ->
  last_pending c s \/ last_updated c s ->
  last_pending c (step update_resolves s a)
  \/ last_updated c (step update_resolves s a).
Proof.
  intros Ha Hs. destruct a as [t c'|t resolved]; [discriminate|].
  cbn [step]. pose proof (fire_due_keeps_last t c s Hs) as Hdue.
  unfold read_done.
  destruct (suspended (fire_due update_resolves t s)); [exact Hdue|].
  destruct resolved; exact Hdue.
Qed.

(** The last event always has the last word.  In every run from the idle
    state in which time does not go backwards (file reads of earlier updates
    may end at any moment), once all timers have fired, the last call to
    [update] carries the content of the last quick-preview event. *)
Theorem last_event_is_updated_last
    (before after : list action) (t : nat) (c : string) :
  in_time_order 0 (before ++ QuickPreview t c :: after) ->
  List.forallb (fun a => negb (is_quick_preview a)) after = true ->
  exists earlier : list string,
    updates (settle update_resolves
               (run_trace update_resolves
                  (before ++ QuickPreview t c :: after) idle))
    = (earlier ++ [c])%list.
Proof.
  intros Horder Hafter.
  assert (Hidle : pending_ok 0 idle) by constructor.
  assert (Hbefore : in_time_order 0 before).
  { clear Hafter Hidle. revert Horder. generalize 0.
    induction before as [|a l IH]; intros n H; [exact I|].
    destruct H as [Ha Hl]. split; [exact Ha|]. now apply IH. }
  destruct (run_pending_ok before 0 idle Hbefore Hidle)
    as (now & _ & Hok & Hnext).
  specialize (Hnext (QuickPreview t c) after Horder). cbn [time_of] in Hnext.
  unfold run_trace in *. rewrite fold_left_app. cbn [fold_left].
  set (s0 := fold_left (step update_resolves) before idle) in *.
  (* right after the last event its timer is pending last *)
  assert (Hlast : last_pending c (step update_resolves s0 (QuickPreview t c))).
  { cbn [step].
    pose proof (fire_due_pending_ok now t s0 Hnext Hok) as Hdue.
    unfold pending_ok in Hdue.
    destruct (on_quick_preview_timers t c (fire_due update_resolves t s0) _ Hdue)
      as (kept & Ht & Hkept & _).
    exists kept. eexists. split; [exact Ht|]. split; [reflexivity|].
    eapply Forall_impl; [exact Hkept|]. cbn. intros x [? ?]. lia. }
  (* the reads that end afterwards do not change that *)
  assert (Hend : forall s,
             last_pending c s \/ last_updated c s ->
             last_pending c (fold_left (step update_resolves) after s)
             \/ last_updated c (fold_left (step update_resolves) after s)).
  { clear Horder. induction after as [|a l IH]; intros s Hs; [exact Hs|].
    cbn [fold_left List.forallb] in *. apply andb_true_iff in Hafter.
    destruct Hafter as [Ha Hl]. apply negb_true_iff in Ha.
    apply (IH Hl). now apply step_keeps_last. }
  destruct (Hend _ (or_introl Hlast)) as [(older & tm & Ht & Hc & _) | [Hnone Hupd]].
  - unfold settle.
    destruct (fire_all_fields (timers (fold_left (step update_resolves) after
                                         (step update_resolves s0 (QuickPreview t c))))
                (fold_left (step update_resolves) after
                   (step update_resolves s0 (QuickPreview t c)))) as (_ & Hu & _).
    rewrite Hu, Ht, List.map_app. cbn [List.map]. rewrite Hc.
    eexists. now rewrite app_assoc.
  - unfold settle. rewrite Hnone. cbn [fold_left]. exact Hupd.
Qed.

End Facts.

Lemma last_event_is_updated_last_sample :
  exists earlier : list string,
    updates (settle (fun _ => true) (run_trace (fun _ => true) racing_trace idle))
    = (earlier ++ ["ab"])%list.
Proof.
  apply (last_event_is_updated_last (fun _ => true)
           [QuickPreview 0 ""; QuickPreview 310 "a"; ReadDone 320 true] []
           400 "ab").
  - cbn. lia.
  - reflexivity.
Defined.

(** A burst of three events on the idle listener. *)
Lemma burst_updates_once_sample :
  updates (settle (fun _ => true)
             (run_trace (fun _ => true)
                (as_actions [(0, "a"); (100, "ab"); (399, "abc")]) idle))
  = ([] ++ ["abc"])%list.
Proof.
  apply (burst_updates_once (fun _ => true) 0 "a" [(100, "ab"); (399, "abc")] idle);
    try reflexivity.
  - discriminate.
  - cbn. unfold DELAY. lia.
Defined.

(** Another component's listener next to the view's. *)
Definition other_listener : Emitters :=
  {| workspaceEvents :=
       [ {| e := TheWorkspace; name := "resize"; fn := CheckAndUpdate; ref_id := 0 |} ];
     leafEvents := [];
     next_ref := 1 |}.

Lemma onClose_keeps_other_listeners_sample :
  workspaceEvents (onClose (fst (setListenersUp other_listener))
                     (snd (setListenersUp other_listener)))
  = workspaceEvents other_listener.
Proof.
  apply onClose_keeps_other_listeners.
  constructor; [cbn; lia|constructor].
Defined.

End DebounceFacts.
